(** * Aim trainer: session state machine, hit resolution and scoring

    A shallow embedding of the game logic of the aim trainer (the [App]
    component with [generateTarget], [startGame], [handleShoot], the pause
    key handler and the countdown effect, and the grade rule of
    [Scoreboard]), followed by the properties of the specification.

    Numbers.  Every quantity of the program is a JavaScript [number].
    Counters, scores, timestamps and the countdown only ever hold integers
    and are modelled in [Z]; coordinates, sizes, distances, the accuracy and
    the average reaction time are modelled as exact rationals in [Q], so
    rounding, NaN and overflow are outside the model.  [Infinity] appears
    once, as the initial [minDistance], and is modelled by [ExtQ].
    [settings.targetCount], the [parseInt] of a range input from 1 to 10,
    is a [nat].

    three.js.  [Ray.intersectsSphere] and [Vector3.distanceTo] belong to
    the library, not to the program; the game logic is developed for any
    two such functions (section [Game]), and evaluated with the rational
    instance [ThreeQ]. *)

From Stdlib Require Import ZArith QArith Qround Qminmax Qpower.
From Stdlib Require Import List String Ascii.
From Stdlib Require Import DecimalString Sorted Bool Lia Lqa.
Import ListNotations.

Local Open Scope Z_scope.

(* ================================================================== *)
(** ** Numbers *)

(** [a < b] on rationals, as a boolean. *)
Definition Qltb (a b : Q) : bool :=
  (Qnum a * QDen b <? Qnum b * QDen a)%Z.

(** A rational or [Infinity]. *)
Inductive ExtQ : Type :=
| Finite (q : Q)
| Infinity.

(** [d < m] where [m] may be [Infinity]. *)
Definition lt_ext (d : Q) (m : ExtQ) : bool :=
  match m with
  | Infinity => true
  | Finite q => Qltb d q
  end.

(* ================================================================== *)
(** ** types.ts *)

Inductive GameState : Type := MENU | PLAYING | PAUSED | FINISHED.

Module CrosshairType.
Inductive t : Type := dot | cross | circle | plus.
End CrosshairType.

Inductive Language : Type := en | zh.

Record GameSettings : Type := mkSettings {
  targetCount : nat;
  targetSize : Q;
  duration : Z;
  crosshair : CrosshairType.t;
  sensitivity : Q;
  language : Language
}.

(** [[number, number, number]] *)
Definition Vec3 : Type := (Q * Q * Q)%type.

Record TargetData : Type := mkTarget {
  id : string;
  position : Vec3;
  createdAt : Z;
  spawnTime : Z
}.

Record HitData : Type := mkHit {
  time : Z;
  reactionTime : Z;
  distance : Q
}.

Record ScoreStats : Type := mkStats {
  score : Z;
  shotsFired : Z;
  shotsHit : Z;
  accuracy : Q;
  avgReactionTime : Q;
  hitHistory : list HitData
}.

(* ================================================================== *)
(** ** constants.ts *)

Definition GAME_DURATION : Z := 60.
Definition MAX_TARGETS : nat := 6.
Definition SPAWN_AREA_WIDTH : Q := 10.
Definition SPAWN_AREA_HEIGHT : Q := 6.
Definition SPAWN_DISTANCE : Q := 12.
Definition TARGET_RADIUS : Q := 0.5.

(* ================================================================== *)
(** ** Game logic helpers *)

Definition DEFAULT_SETTINGS : GameSettings :=
  {| targetCount := 3;
     targetSize := TARGET_RADIUS;
     duration := 60;
     crosshair := CrosshairType.dot;
     sensitivity := 1;
     language := zh |}.

(** What one call of [generateTarget] reads from its environment: the
    results of its three [Math.random()] calls and of its two [Date.now()]
    calls.  The third random number is only used through
    [Math.random().toString(36).substr(2, 9)], and the record holds that
    string.  [Math.random()] returns a number in [0, 1). *)
Record Draw : Type := mkDraw {
  rand_x : Q;
  rand_y : Q;
  rand_id : string;
  now_created : Z;
  now_spawn : Z
}.

Definition valid_draw (d : Draw) : Prop :=
  (0 <= rand_x d /\ rand_x d < 1)%Q /\ (0 <= rand_y d /\ rand_y d < 1)%Q.

(** [generateTarget]; the argument [currentList] is not used by the body. *)
Definition generateTarget (currentList : list TargetData) (d : Draw)
  : TargetData :=
  let x := ((rand_x d - 0.5) * SPAWN_AREA_WIDTH)%Q in
  let y := (1.2 + rand_y d * 2.5)%Q in
  let z := (- SPAWN_DISTANCE)%Q in
  {| id := rand_id d;
     position := (x, y, z);
     createdAt := now_created d;
     spawnTime := now_spawn d |}.

(* ================================================================== *)
(** ** Scoreboard: the grade *)

Inductive Grade : Type := S_grade | A_grade | B_grade | C_grade | D_grade.

(** The [if / else if] chain of [Scoreboard] over [stats.accuracy] and
    [avgReaction = stats.avgReactionTime]; [grade] starts as ['D']. *)
Definition grade_of (acc avgReaction : Q) : Grade :=
  if Qltb 90 acc && Qltb avgReaction 350 then S_grade
  else if Qltb 85 acc && Qltb avgReaction 450 then A_grade
  else if Qltb 75 acc && Qltb avgReaction 550 then B_grade
  else if Qltb 60 acc then C_grade
  else D_grade.

Definition grade (stats : ScoreStats) : Grade :=
  grade_of (accuracy stats) (avgReactionTime stats).

(* ================================================================== *)
(** ** The part of three.js that [handleShoot] uses *)

(** [THREE.Ray]: [raycaster.ray] has an [origin] and a [direction]. *)
Record Ray : Type := mkRay {
  origin : Vec3;
  direction : Vec3
}.

(** [new THREE.Sphere(center, radius)] *)
Record Sphere : Type := mkSphere {
  center : Vec3;
  radius : Q
}.

(** A rational instance of the two three.js operations, to evaluate the
    model on concrete inputs.  [intersectsSphere] compares the squared
    distance from the sphere's center to the ray with the squared radius,
    as three.js does; [distanceTo] is the Euclidean distance cut to three
    decimals, the square root not being rational. *)
Module ThreeQ.

Definition sub (a b : Vec3) : Vec3 :=
  let '(ax, ay, az) := a in
  let '(bx, by_, bz) := b in
  (ax - bx, ay - by_, az - bz)%Q.

Definition dot (a b : Vec3) : Q :=
  let '(ax, ay, az) := a in
  let '(bx, by_, bz) := b in
  (ax * bx + ay * by_ + az * bz)%Q.

Definition addScaledVector (a v : Vec3) (k : Q) : Vec3 :=
  let '(ax, ay, az) := a in
  let '(vx, vy, vz) := v in
  (ax + vx * k, ay + vy * k, az + vz * k)%Q.

Definition distanceToSquared (a b : Vec3) : Q :=
  dot (sub a b) (sub a b).

Definition distanceSqToPoint (r : Ray) (point : Vec3) : Q :=
  let directionDistance := dot (sub point (origin r)) (direction r) in
  if Qltb directionDistance 0 then distanceToSquared (origin r) point
  else distanceToSquared
         (addScaledVector (origin r) (direction r) directionDistance) point.

Definition intersectsSphere (r : Ray) (s : Sphere) : bool :=
  Qle_bool (distanceSqToPoint r (center s)) (radius s * radius s).

Definition distanceTo (a b : Vec3) : Q :=
  (inject_Z (Z.sqrt (Qfloor (distanceToSquared a b * 1000000))) / 1000)%Q.

End ThreeQ.

(* ================================================================== *)
(** ** App: the state *)

(** The five [useState] cells of [App].  A handler runs to completion and
    its updates are applied before the next event is handled, so an event
    takes one state to the next, and [handleShoot] reads the [targets],
    [settings] and [timeLeft] that its updaters are applied to. *)
Record AppState : Type := mkApp {
  gameState : GameState;
  settings : GameSettings;
  targets : list TargetData;
  timeLeft : Z;
  stats : ScoreStats
}.

Definition setGameState (g : GameState) (s : AppState) : AppState :=
  {| gameState := g; settings := settings s; targets := targets s;
     timeLeft := timeLeft s; stats := stats s |}.

Definition setSettings (c : GameSettings) (s : AppState) : AppState :=
  {| gameState := gameState s; settings := c; targets := targets s;
     timeLeft := timeLeft s; stats := stats s |}.

Definition setTargets (l : list TargetData) (s : AppState) : AppState :=
  {| gameState := gameState s; settings := settings s; targets := l;
     timeLeft := timeLeft s; stats := stats s |}.

Definition setTimeLeft (n : Z) (s : AppState) : AppState :=
  {| gameState := gameState s; settings := settings s; targets := targets s;
     timeLeft := n; stats := stats s |}.

Definition setStats (st : ScoreStats) (s : AppState) : AppState :=
  {| gameState := gameState s; settings := settings s; targets := targets s;
     timeLeft := timeLeft s; stats := st |}.

(** The statistics [App] starts with and [startGame] resets to. *)
Definition zeroStats : ScoreStats :=
  {| score := 0; shotsFired := 0; shotsHit := 0; accuracy := 0;
     avgReactionTime := 0; hitHistory := [] |}.

(** The state of [App] when it is mounted. *)
Definition initialState : AppState :=
  {| gameState := MENU;
     settings := DEFAULT_SETTINGS;
     targets := [];
     timeLeft := duration DEFAULT_SETTINGS;
     stats := zeroStats |}.

(** The [keydown] handler, for [Escape] and [Space]. *)
Definition handleKeyDown (s : AppState) : AppState :=
  match gameState s with
  | PLAYING => setGameState PAUSED s
  | PAUSED => setGameState PLAYING s
  | _ => s
  end.

(** One firing of the one-second interval.  The effect installs the
    interval only when [gameState === PLAYING] and clears it whenever
    [gameState] changes, so in any other state nothing fires. *)
Definition tick (s : AppState) : AppState :=
  match gameState s with
  | PLAYING =>
      let prev := timeLeft s in
      if prev <=? 1 then setTimeLeft 0 (setGameState FINISHED s)
      else setTimeLeft (prev - 1) s
  | _ => s
  end.

(** [startGame]; [ds i] is what the [i]-th call of [generateTarget] reads. *)
Definition startGame (ds : nat -> Draw) (s : AppState) : AppState :=
  let initialTargets :=
    map (fun i => generateTarget [] (ds i))
        (seq 0 (targetCount (settings s))) in
  {| gameState := PLAYING;
     settings := settings s;
     targets := initialTargets;
     timeLeft := duration (settings s);
     stats := zeroStats |}.

Definition resumeGame (s : AppState) : AppState := setGameState PLAYING s.
Definition quitToMenu (s : AppState) : AppState := setGameState MENU s.

(* ================================================================== *)
(** ** handleShoot *)

(** The three locals of the hit search, [hitId], [hitTarget] and
    [minDistance].  They start as [null], [null], [Infinity] and are only
    assigned together, to [target.id], [target] and [distance]; [None] is
    the initial triple and [Some (target, distance)] an assigned one. *)
Definition Hit : Type := option (TargetData * Q).

Definition hitId (h : Hit) : option string :=
  match h with Some (t, _) => Some (id t) | None => None end.

Definition hitTarget (h : Hit) : option TargetData :=
  match h with Some (t, _) => Some t | None => None end.

Definition minDistance (h : Hit) : ExtQ :=
  match h with Some (_, d) => Finite d | None => Infinity end.

(** Truthiness of a [string | null]: [null] and the empty string are
    falsy.  This is [!!hitId] and the test of [if (hitId)]. *)
Definition truthy (i : option string) : bool :=
  match i with
  | Some s => negb (s =? "")%string
  | None => false
  end.

(** [newHistory.reduce((acc, h) => acc + h.reactionTime, 0)] *)
Definition totalReaction (history : list HitData) : Z :=
  fold_left (fun acc h => acc + reactionTime h) history 0.

(** The updater given to [setStats].  The test [isHit && hitTarget] is
    the [Some] case with [isHit]: [hitTarget] is an object, hence truthy,
    exactly when the search assigned its triple. *)
Definition updateStats (cfg : GameSettings) (left now : Z) (h : Hit)
    (prev : ScoreStats) : ScoreStats :=
  let isHit := truthy (hitId h) in
  let newShots := shotsFired prev + 1 in
  let newHits := if isHit then shotsHit prev + 1 else shotsHit prev in
  let '(newHistory, newAvgReaction) :=
    match h with
    | Some (target, dist) =>
        if isHit then
          let newHistory :=
            hitHistory prev ++
              [{| time := duration cfg - left;
                  reactionTime := now - spawnTime target;
                  distance := dist |}] in
          (newHistory,
           (inject_Z (totalReaction newHistory)
            / inject_Z (Z.of_nat (List.length newHistory)))%Q)
        else (hitHistory prev, avgReactionTime prev)
    | None => (hitHistory prev, avgReactionTime prev)
    end in
  {| score := score prev + (if isHit then 100 else 0);
     shotsFired := newShots;
     shotsHit := newHits;
     accuracy :=
       if 0 <? newShots
       then (inject_Z newHits / inject_Z newShots * 100)%Q
       else 0%Q;
     avgReactionTime := newAvgReaction;
     hitHistory := newHistory |}.

(** The updater given to [setTargets] for the id [hit]: the targets with
    another id, then one new target pushed at the end. *)
Definition respawn (hit : string) (d : Draw) (prev : list TargetData)
  : list TargetData :=
  let remaining := filter (fun t => negb (id t =? hit)%string) prev in
  remaining ++ [generateTarget remaining d].

(** What the user and the environment can do. *)
Inductive Event : Type :=
| KeyPause
| TimerTick
| MouseDown (raycaster : Ray) (now : Z) (d : Draw)
| ClickStart (ds : nat -> Draw)
| ClickResume
| ClickMenu
| SetLanguage (l : Language)
| SetTargetCount (n : nat)
| SetTargetSize (q : Q)
| SetCrosshair (c : CrosshairType.t).

(** What the browser guarantees about an event: random numbers lie in
    [0, 1), and the two range inputs stay within their [min] and [max]. *)
Definition valid_event (e : Event) : Prop :=
  match e with
  | MouseDown _ _ d => valid_draw d
  | ClickStart ds => forall i, valid_draw (ds i)
  | SetTargetCount n => (1 <= n <= 10)%nat
  | SetTargetSize q => (0.2 <= q /\ q <= 1.5)%Q
  | _ => True
  end.

(* ================================================================== *)
(** ** Vocabulary of the properties *)

(** The detection sphere of a target.  The radius is the exact product;
    the program's is this product rounded to a double. *)
Definition hitbox (size : Q) (t : TargetData) : Sphere :=
  {| center := position t; radius := (size * 1.1)%Q |}.

(** The box targets are spawned in. *)
Definition in_spawn_box (p : Vec3) : Prop :=
  let '(x, y, z) := p in
  (- (SPAWN_AREA_WIDTH / 2) <= x /\ x <= SPAWN_AREA_WIDTH / 2)%Q
  /\ (1.2 <= y /\ y <= 3.7)%Q
  /\ (z == - SPAWN_DISTANCE)%Q.

(** [n] firings of the interval in a row. *)
Definition ticks (n : nat) (s : AppState) : AppState := Nat.iter n tick s.

(** The events by which time passes without the player using a control:
    the interval callback and a mouse button. *)
Definition passive (e : Event) : Prop :=
  match e with
  | TimerTick | MouseDown _ _ _ => True
  | _ => False
  end.

(** The sum of a list of integers. *)
Definition Zsum (l : list Z) : Z := fold_right Z.add 0 l.

(** The arithmetic mean of a list of integers. *)
Definition mean (l : list Z) : Q :=
  (inject_Z (Zsum l) / inject_Z (Z.of_nat (List.length l)))%Q.

(** One shot as the statistics see it: the settings, the remaining time
    and the clock when it was fired, and what the hit search found. *)
Record Shot : Type := mkShot {
  shot_settings : GameSettings;
  shot_timeLeft : Z;
  shot_now : Z;
  shot_hit : Hit
}.

Definition scoreShot (prev : ScoreStats) (sh : Shot) : ScoreStats :=
  updateStats (shot_settings sh) (shot_timeLeft sh) (shot_now sh)
    (shot_hit sh) prev.

Definition scoreShots (shots : list Shot) (st : ScoreStats) : ScoreStats :=
  fold_left scoreShot shots st.

(** The reaction times of the shots that hit, in firing order. *)
Definition hitReactions (shots : list Shot) : list Z :=
  flat_map
    (fun sh =>
       match shot_hit sh with
       | Some (t, _) =>
           if truthy (hitId (shot_hit sh))
           then [shot_now sh - spawnTime t] else []
       | None => []
       end)
    shots.

(** The stored accuracy agrees with the two counters. *)
Definition accuracy_ok (st : ScoreStats) : Prop :=
  (0 < shotsFired st ->
   (accuracy st == inject_Z (shotsHit st) / inject_Z (shotsFired st) * 100)%Q)
  /\ (shotsFired st <= 0 -> (accuracy st == 0)%Q).

(** The stored average agrees with the history. *)
Definition average_ok (st : ScoreStats) : Prop :=
  (hitHistory st = [] -> avgReactionTime st = 0%Q)
  /\ (hitHistory st <> [] ->
      avgReactionTime st = mean (map reactionTime (hitHistory st))).

(** The counters count, and each hit is worth 100. *)
Definition counters_ok (st : ScoreStats) : Prop :=
  0 <= shotsHit st <= shotsFired st
  /\ shotsHit st = Z.of_nat (List.length (hitHistory st))
  /\ score st = 100 * shotsHit st.

(** The countdown is within the session's duration, and is at least 1
    while a session is running or paused. *)
Definition clock_ok (s : AppState) : Prop :=
  duration (settings s) = 60
  /\ 0 <= timeLeft s <= 60
  /\ (gameState s = PLAYING \/ gameState s = PAUSED -> 1 <= timeLeft s).

(** A running or paused session has [targetCount] live targets with
    pairwise different ids. *)
Definition live_ok (s : AppState) : Prop :=
  gameState s = PLAYING \/ gameState s = PAUSED ->
  List.length (targets s) = targetCount (settings s)
  /\ NoDup (map id (targets s)).

(* ================================================================== *)
(** ** Scoreboard: the report *)

(** [n || 1] for a length [n]: 0 is falsy. *)
Definition or_one (n : nat) : Z :=
  if (n =? 0)%nat then 1 else Z.of_nat n.

(** [stats.hitHistory.map(h => h.reactionTime)] *)
Definition reactionTimes (st : ScoreStats) : list Z :=
  map reactionTime (hitHistory st).

(** [a / b] where the divisor matters: in JavaScript a division by zero
    gives [NaN] or an infinity, which are no rationals; [None] stands for
    them. *)
Definition js_div (a b : Q) : option Q :=
  if Qeq_bool b 0 then None else Some (a / b)%Q.

(** The [variance] of [Scoreboard], around the stored average. *)
Definition variance (st : ScoreStats) : option Q :=
  let avgReaction := avgReactionTime st in
  js_div
    (fold_left (fun acc val => acc + (inject_Z val - avgReaction) ^ 2)%Q
       (reactionTimes st) 0%Q)
    (inject_Z (or_one (List.length (reactionTimes st)))).

(** The average hit distance shown by [Scoreboard], before [toFixed]. *)
Definition avgDistance (st : ScoreStats) : option Q :=
  js_div
    (fold_left (fun acc h => acc + distance h)%Q (hitHistory st) 0%Q)
    (inject_Z (or_one (List.length (hitHistory st)))).

(** [renderChart]: the constants of the drawing. *)
Definition chart_height : Q := 80.
Definition chart_width : Q := 300.
Definition chart_padding : Q := 5.

(** The point of the [i]-th of [n] hits; the [polyline] and the circles
    use the same [x] and [y]. *)
Definition chartPoint (n : nat) (maxReaction : Q) (h : HitData) (i : nat)
  : Q * Q :=
  let x := (chart_padding
            + (inject_Z (Z.of_nat i) / inject_Z (Z.of_nat n - 1))
              * (chart_width - chart_padding * 2))%Q in
  let y := (chart_height - chart_padding
            - (inject_Z (reactionTime h) / maxReaction)
              * (chart_height - chart_padding * 2))%Q in
  (x, y).

(** [renderChart]: [None] is the "no data" message shown for fewer than
    two hits; otherwise the points, with [maxReaction] the largest
    reaction time times 1.1. *)
Definition renderChart (st : ScoreStats) : option (list (Q * Q)) :=
  let history := hitHistory st in
  if (List.length history <? 2)%nat then None
  else
    match map reactionTime history with
    | [] => None
    | r :: rs =>
        let maxReaction := (inject_Z (fold_left Z.max rs r) * 1.1)%Q in
        Some (map (fun '(i, h) =>
                     chartPoint (List.length history) maxReaction h i)
                (combine (seq 0 (List.length history)) history))
    end.

(** The order of the grades, D lowest. *)
Definition grade_rank (g : Grade) : nat :=
  match g with
  | D_grade => 0 | C_grade => 1 | B_grade => 2 | A_grade => 3 | S_grade => 4
  end.

(* ================================================================== *)
(** ** The clock of the HUD *)

(** [n.toString()] for an integer [n]. *)
Definition Number_toString (n : Z) : string :=
  NilZero.string_of_int (Z.to_int n).

(** [n] characters taken from [pad] again and again; [cur] is what is
    left of the current copy. *)
Fixpoint pad_fill (n : nat) (pad cur : string) : string :=
  match n with
  | O => EmptyString
  | S n' =>
      match cur with
      | String c rest => String c (pad_fill n' pad rest)
      | EmptyString =>
          match pad with
          | String c rest => String c (pad_fill n' pad rest)
          | EmptyString => EmptyString
          end
      end
  end.

(** [s.padStart(target, pad)] *)
Definition padStart (target : nat) (pad s : string) : string :=
  if (target <=? String.length s)%nat then s
  else (pad_fill (target - String.length s) pad pad ++ s)%string.

(** [Math.floor(timeLeft / 60)] and [timeLeft % 60]; [%] takes the sign of
    the dividend. *)
Definition clockMinutes (left : Z) : Z := left / 60.
Definition clockSeconds (left : Z) : Z := Z.rem left 60.

(** The text of the countdown. *)
Definition hudClock (left : Z) : string :=
  (Number_toString (clockMinutes left) ++ ":"
   ++ padStart 2 "0" (Number_toString (clockSeconds left)))%string.

(** Whether the countdown is shown red and pulsing. *)
Definition hudUrgent (left : Z) : bool := left <=? 10.

(* ================================================================== *)
(** ** Gun.tsx: the weapon's animation *)

(** The two refs of [Gun]. *)
Record GunState : Type := mkGun {
  recoilAnim : Q;
  bobAnim : Q
}.

(** What a frame writes to the group: its position and [rotation.x]. *)
Record GunPose : Type := mkPose {
  pose_x : Q;
  pose_y : Q;
  pose_z : Q;
  pose_rotation_x : Q
}.

(** The refs when [Gun] is mounted. *)
Definition gunInitial : GunState := {| recoilAnim := 0; bobAnim := 0 |}.

(** The [useFrame] callback of [Gun], for a frame that lasted [delta]
    seconds once the group is mounted ([groupRef.current] is set); [sin]
    and [cos] are [Math.sin] and [Math.cos].  A frame writes the whole
    pose, so the pose before it plays no part.  Sums and products are the
    exact ones; the program rounds each to a double, so only what also
    holds after rounding is stated of it below. *)
Definition gunFrame (sin cos : Q -> Q) (isShooting isMoving : bool)
    (delta : Q) (g : GunState) : GunState * GunPose :=
  let recoil0 := if isShooting then 0.2%Q else recoilAnim g in
  let recoil := Qmax 0 (recoil0 - delta * 2) in
  let z := (-0.3 + recoil)%Q in
  let rx := (recoil * 0.5)%Q in
  if isMoving then
    let bob := (bobAnim g + delta * 10)%Q in
    ({| recoilAnim := recoil; bobAnim := bob |},
     {| pose_x := (0.2 + cos (bob * 0.5) * 0.01)%Q;
        pose_y := (-0.4 + sin bob * 0.02)%Q;
        pose_z := z;
        pose_rotation_x := rx |})
  else
    let bob := (bobAnim g + delta * 2)%Q in
    ({| recoilAnim := recoil; bobAnim := bob |},
     {| pose_x := 0.2%Q;
        pose_y := (-0.4 + sin bob * 0.005)%Q;
        pose_z := z;
        pose_rotation_x := rx |}).

(** Frames in a row without a shot, the last frame's result. *)
Definition gunRest (sin cos : Q -> Q) (isMoving : bool) (deltas : list Q)
    (g : GunState) : GunState :=
  fold_left (fun g delta => fst (gunFrame sin cos false isMoving delta g))
    deltas g.

(** Any frames in a row: for each, whether a shot is shown, whether the
    player moves, and its length. *)
Definition gunFrames (sin cos : Q -> Q) (frames : list (bool * bool * Q))
    (g : GunState) : GunState :=
  fold_left
    (fun g '(isShooting, isMoving, delta) =>
       fst (gunFrame sin cos isShooting isMoving delta g))
    frames g.

(* ================================================================== *)
(** ** Player: the movement keys *)

(** The four movement flags of [Player]. *)
Record MoveKeys : Type := mkKeys {
  moveForward : bool;
  moveBackward : bool;
  moveLeft : bool;
  moveRight : bool
}.

Definition keysInitial : MoveKeys :=
  {| moveForward := false; moveBackward := false;
     moveLeft := false; moveRight := false |}.

(** The flag a key code stands for. *)
Inductive MoveFlag : Type := Forward | Backward | Leftward | Rightward.

(** The [switch] both handlers share. *)
Definition flagOfCode (code : string) : option MoveFlag :=
  if (code =? "ArrowUp")%string || (code =? "KeyW")%string then Some Forward
  else if (code =? "ArrowLeft")%string || (code =? "KeyA")%string
       then Some Leftward
  else if (code =? "ArrowDown")%string || (code =? "KeyS")%string
       then Some Backward
  else if (code =? "ArrowRight")%string || (code =? "KeyD")%string
       then Some Rightward
  else None.

Definition setFlag (f : MoveFlag) (b : bool) (k : MoveKeys) : MoveKeys :=
  match f with
  | Forward =>
      {| moveForward := b; moveBackward := moveBackward k;
         moveLeft := moveLeft k; moveRight := moveRight k |}
  | Backward =>
      {| moveForward := moveForward k; moveBackward := b;
         moveLeft := moveLeft k; moveRight := moveRight k |}
  | Leftward =>
      {| moveForward := moveForward k; moveBackward := moveBackward k;
         moveLeft := b; moveRight := moveRight k |}
  | Rightward =>
      {| moveForward := moveForward k; moveBackward := moveBackward k;
         moveLeft := moveLeft k; moveRight := b |}
  end.

Definition getFlag (f : MoveFlag) (k : MoveKeys) : bool :=
  match f with
  | Forward => moveForward k
  | Backward => moveBackward k
  | Leftward => moveLeft k
  | Rightward => moveRight k
  end.

(** [onKeyDown] and [onKeyUp] of [Player]. *)
Definition onKeyDown (code : string) (k : MoveKeys) : MoveKeys :=
  match flagOfCode code with
  | Some f => setFlag f true k
  | None => k
  end.

Definition onKeyUp (code : string) (k : MoveKeys) : MoveKeys :=
  match flagOfCode code with
  | Some f => setFlag f false k
  | None => k
  end.

(** A keyboard event: [true] for [keydown], and the key's code. *)
Definition KeyEvent : Type := (bool * string)%type.

Definition onKey (k : MoveKeys) (e : KeyEvent) : MoveKeys :=
  let '(down, code) := e in
  if down then onKeyDown code k else onKeyUp code k.

Definition onKeys (es : list KeyEvent) (k : MoveKeys) : MoveKeys :=
  fold_left onKey es k.

(** The last event of [es] on a key of the flag [f], if any: [Some true]
    for a [keydown]. *)
Fixpoint lastOn (f : MoveFlag) (es : list KeyEvent) : option bool :=
  match es with
  | [] => None
  | (down, code) :: rest =>
      match lastOn f rest with
      | Some b => Some b
      | None =>
          match flagOfCode code, f with
          | Some Forward, Forward | Some Backward, Backward
          | Some Leftward, Leftward | Some Rightward, Rightward => Some down
          | _, _ => None
          end
      end
  end.

(** The settings a player can reach. *)
Definition settings_ok (c : GameSettings) : Prop :=
  (1 <= targetCount c <= 10)%nat
  /\ (0.2 <= targetSize c /\ targetSize c <= 1.5)%Q
  /\ duration c = 60
  /\ sensitivity c = 1%Q.

(** The hit records carry session times between 0 and the time elapsed,
    below the duration, in ascending order. *)
Definition history_ok (s : AppState) : Prop :=
  Forall (fun h => 0 <= time h <= duration (settings s) - timeLeft s
                   /\ time h < duration (settings s))
    (hitHistory (stats s))
  /\ StronglySorted Z.le (map time (hitHistory (stats s))).

(** A running or paused session has between 1 and [targetCount] live
    targets. *)
Definition live_bounded (s : AppState) : Prop :=
  gameState s = PLAYING \/ gameState s = PAUSED ->
  (1 <= List.length (targets s) <= targetCount (settings s))%nat.

(** Reading back a text of two decimal digits. *)
Definition isDigit (c : ascii) : bool :=
  (48 <=? nat_of_ascii c)%nat && (nat_of_ascii c <=? 57)%nat.

Definition twoDigitsOf (str : string) : option Z :=
  match str with
  | String a (String b EmptyString) =>
      if isDigit a && isDigit b
      then Some ((Z.of_nat (nat_of_ascii a) - 48) * 10
                 + (Z.of_nat (nat_of_ascii b) - 48))
      else None
  | _ => None
  end.

(** Whether the seconds [n] are shown as two digits that read [n]. *)
Definition secondsShown (n : nat) : bool :=
  match twoDigitsOf (padStart 2 "0" (Number_toString (Z.of_nat n))) with
  | Some v => v =? Z.of_nat n
  | None => false
  end.

(** Concrete inputs for the examples. *)
Module Sample.

(** The camera of the scene is at (0, 2, 5) and looks down the -z axis. *)
Definition ray_ahead : Ray :=
  {| origin := (0, 2, 5)%Q; direction := (0, 0, -1)%Q |}.

Definition ray_up : Ray :=
  {| origin := (0, 2, 5)%Q; direction := (0, 1, 0)%Q |}.

(** [Math.random()] returning 0.5, 0.32 and 0.5: the target is straight
    ahead of the camera, and 0.5 in base 36 is "0.i". *)
Definition draw_ahead : Draw :=
  {| rand_x := 0.5; rand_y := 0.32; rand_id := "i";
     now_created := 1000; now_spawn := 1000 |}.

(** The same third random number, another place. *)
Definition draw_left : Draw :=
  {| rand_x := 0.2; rand_y := 0.5; rand_id := "i";
     now_created := 1000; now_spawn := 1000 |}.

Definition draw_right : Draw :=
  {| rand_x := 0.9; rand_y := 0.1; rand_id := "r4pz0q1xk";
     now_created := 1000; now_spawn := 1000 |}.

Definition draw_new : Draw :=
  {| rand_x := 0.25; rand_y := 0.75; rand_id := "9";
     now_created := 1250; now_spawn := 1250 |}.

(** Three draws with three ids. *)
Definition draws_distinct (i : nat) : Draw :=
  match i with
  | O => draw_ahead
  | 1%nat => {| rand_x := 0.2; rand_y := 0.5; rand_id := "7";
                now_created := 1000; now_spawn := 1000 |}
  | _ => draw_right
  end.

(** Three draws, the first two with the same id. *)
Definition draws_clash (i : nat) : Draw :=
  match i with
  | O => draw_ahead
  | 1%nat => draw_left
  | _ => draw_right
  end.

Definition target_ahead : TargetData := generateTarget [] draw_ahead.

Definition playing : AppState := startGame draws_distinct initialState.

(** A session with 42 seconds left. *)
Definition playing_42 : AppState := ticks 18 playing.

(** Ten seconds of timer firings, and a mouse button. *)
Definition ten_seconds_paused : list Event :=
  repeat TimerTick 10 ++ [MouseDown ray_ahead 30000 draw_new].

(** A session: the start, a hit, a pause and a resume, a tick. *)
Definition fresh_events : list Event :=
  [ClickStart draws_distinct; MouseDown ray_ahead 1200 draw_new;
   KeyPause; KeyPause; TimerTick].

(** A session in which two of the three starting targets drew the id "i",
    and a hit on one of them. *)
Definition clash_events : list Event :=
  [ClickStart draws_clash; MouseDown ray_ahead 1200 draw_new].

(** The menu with a session length of five seconds. *)
Definition five_seconds : AppState :=
  setSettings
    {| targetCount := 3; targetSize := TARGET_RADIUS; duration := 5;
       crosshair := CrosshairType.dot; sensitivity := 1; language := zh |}
    initialState.

(** A target whose id is the empty string: [Math.random()] returned 0,
    and ["0".substr(2, 9)] is empty. *)
Definition draw_empty_id : Draw :=
  {| rand_x := 0.5; rand_y := 0.32; rand_id := "";
     now_created := 1000; now_spawn := 1000 |}.

(** Ten shots at the clock times 2000, 3000, ..., of which the seven that
    hit find targets spawned 200, 250, 300, 150, 400, 350 and 280
    milliseconds earlier; the others find nothing. *)
Definition shot_at (left now : Z) (h : Hit) : Shot :=
  {| shot_settings := DEFAULT_SETTINGS; shot_timeLeft := left;
     shot_now := now; shot_hit := h |}.

Definition spawned_at (t : Z) : TargetData :=
  {| id := "i"; position := (0, 2, -12)%Q; createdAt := t; spawnTime := t |}.

Definition ten_shots : list Shot :=
  [ shot_at 58 2000 (Some (spawned_at 1800, 17%Q));
    shot_at 57 3000 None;
    shot_at 56 4000 (Some (spawned_at 3750, 17%Q));
    shot_at 55 5000 (Some (spawned_at 4700, 17%Q));
    shot_at 54 6000 None;
    shot_at 53 7000 (Some (spawned_at 6850, 17%Q));
    shot_at 52 8000 (Some (spawned_at 7600, 17%Q));
    shot_at 51 9000 None;
    shot_at 50 10000 (Some (spawned_at 9650, 17%Q));
    shot_at 49 11000 (Some (spawned_at 10720, 17%Q)) ].

End Sample.

(** Further concrete inputs. *)
Module SampleExtra.

(** A session in which the menu is not visited: a pause, inputs that only
    exist in the menu, a tick. *)
Definition session_events : list Event :=
  [SetTargetCount 7; KeyPause; SetTargetSize 1; KeyPause; TimerTick].

(** The largest settings of the menu, then a start. *)
Definition big_events : list Event :=
  [SetTargetCount 10; SetTargetSize 1.5; ClickStart Sample.draws_distinct].

(** A session that has ended. *)
Definition finished : AppState := ticks 60 Sample.playing.

(** One target is chosen in the menu, and the target made by the start
    draws 0 as its third random number: its id is the empty string. *)
Definition empty_id_events : list Event :=
  [SetTargetCount 1; ClickStart (fun _ => Sample.draw_empty_id)].

(** Two targets at the same place, and so equally far. *)
Definition twins : list TargetData :=
  [ {| id := "a"; position := (0, 2, -12)%Q; createdAt := 1; spawnTime := 1 |};
    {| id := "b"; position := (0, 2, -12)%Q; createdAt := 2; spawnTime := 2 |} ].

(** Rational stand-ins for [Math.sin] and [Math.cos]: the first terms of
    their series. *)
Definition sinQ (x : Q) : Q := (x - x * x * x / 6)%Q.
Definition cosQ (x : Q) : Q := (1 - x * x / 2)%Q.

(** A shot, then three frames of 16 milliseconds. *)
Definition gun_frames : list (bool * bool * Q) :=
  [(true, false, 0.016%Q); (false, true, 0.016%Q); (false, true, 0.016%Q);
   (false, false, 0.016%Q)].

(** Frames of 50, 30 and 120 milliseconds. *)
Definition rest_deltas : list Q := [0.05; 0.03; 0.12]%Q.

Definition gun_recoiled : GunState := {| recoilAnim := 0.2; bobAnim := 0 |}.

End SampleExtra.

Section Game.

(** [ray.intersectsSphere(sphere)] and [a.distanceTo(b)] of three.js. *)
Variable intersectsSphere : Ray -> Sphere -> bool.
Variable distanceTo : Vec3 -> Vec3 -> Q.

(** The body of [targets.forEach] for one [target]. *)
Definition visit (ray : Ray) (size : Q) (acc : Hit) (target : TargetData)
  : Hit :=
  let sphereCenter := position target in
  let sphere := {| center := sphereCenter; radius := (size * 1.1)%Q |} in
  if intersectsSphere ray sphere then
    let dist := distanceTo sphereCenter (origin ray) in
    if lt_ext dist (minDistance acc) then Some (target, dist) else acc
  else acc.

(** The hit search of [handleShoot]. *)
Definition resolve (ray : Ray) (l : list TargetData) (size : Q) : Hit :=
  fold_left (visit ray size) l None.

(** [handleShoot]: the search, then the two state updates. *)
Definition handleShoot (raycaster : Ray) (now : Z) (d : Draw) (s : AppState)
  : AppState :=
  let ray := raycaster in
  let h := resolve ray (targets s) (targetSize (settings s)) in
  let s1 := setStats (updateStats (settings s) (timeLeft s) now h (stats s)) s in
  match hitId h with
  | Some i => if truthy (hitId h) then setTargets (respawn i d (targets s1)) s1
              else s1
  | None => s1
  end.

(** One event.  A control that is not on screen in the current state
    cannot be used: the menu and its inputs exist in [MENU] only, the
    resume button in [PAUSED], the restart buttons in [PAUSED] and
    [FINISHED], the way back to the menu in [PAUSED] and [FINISHED];
    [Player] listens to [mousedown] in [PLAYING] only. *)
Definition step (s : AppState) (e : Event) : AppState :=
  match e with
  | KeyPause => handleKeyDown s
  | TimerTick => tick s
  | MouseDown raycaster now d =>
      match gameState s with
      | PLAYING => handleShoot raycaster now d s
      | _ => s
      end
  | ClickStart ds =>
      match gameState s with
      | PLAYING => s
      | _ => startGame ds s
      end
  | ClickResume =>
      match gameState s with
      | PAUSED => resumeGame s
      | _ => s
      end
  | ClickMenu =>
      match gameState s with
      | PAUSED | FINISHED => quitToMenu s
      | _ => s
      end
  | SetLanguage l =>
      match gameState s with
      | MENU =>
          let c := settings s in
          setSettings {| targetCount := targetCount c;
                         targetSize := targetSize c;
                         duration := duration c;
                         crosshair := crosshair c;
                         sensitivity := sensitivity c;
                         language := l |} s
      | _ => s
      end
  | SetTargetCount n =>
      match gameState s with
      | MENU =>
          let c := settings s in
          setSettings {| targetCount := n;
                         targetSize := targetSize c;
                         duration := duration c;
                         crosshair := crosshair c;
                         sensitivity := sensitivity c;
                         language := language c |} s
      | _ => s
      end
  | SetTargetSize q =>
      match gameState s with
      | MENU =>
          let c := settings s in
          setSettings {| targetCount := targetCount c;
                         targetSize := q;
                         duration := duration c;
                         crosshair := crosshair c;
                         sensitivity := sensitivity c;
                         language := language c |} s
      | _ => s
      end
  | SetCrosshair k =>
      match gameState s with
      | MENU =>
          let c := settings s in
          setSettings {| targetCount := targetCount c;
                         targetSize := targetSize c;
                         duration := duration c;
                         crosshair := k;
                         sensitivity := sensitivity c;
                         language := language c |} s
      | _ => s
      end
  end.

Definition run (s : AppState) (es : list Event) : AppState :=
  fold_left step es s.

(** The states the application can be in. *)
Inductive reachable : AppState -> Prop :=
| reachable_init : reachable initialState
| reachable_step s e :
    reachable s -> valid_event e -> reachable (step s e).

(** Whether the ids an event draws are new: [startGame] draws pairwise
    different ids, and a shot draws an id that no live target has. *)
Definition fresh_event (s : AppState) (e : Event) : Prop :=
  match e with
  | ClickStart ds =>
      NoDup (map (fun i => rand_id (ds i)) (seq 0 (targetCount (settings s))))
  | MouseDown _ _ d => ~ In (rand_id d) (map id (targets s))
  | _ => True
  end.

(** The states reached when every id drawn was new. *)
Inductive reachable_fresh : AppState -> Prop :=
| reachable_fresh_init : reachable_fresh initialState
| reachable_fresh_step s e :
    reachable_fresh s -> valid_event e -> fresh_event s e ->
    reachable_fresh (step s e).

(* ================================================================== *)
(** ** Comparisons *)

Lemma Qltb_lt (a b : Q) : Qltb a b = true <-> (a < b)%Q.
Proof. unfold Qltb, Qlt. apply Z.ltb_lt. Qed.

Lemma Qltb_ge (a b : Q) : Qltb a b = false <-> (b <= a)%Q.
Proof. unfold Qltb, Qle. rewrite Z.ltb_ge. reflexivity. Qed.

(* ================================================================== *)
(** ** The grade *)

(** C7.  The grade is S when accuracy > 90 and the average reaction time
    is below 350; otherwise A when accuracy > 85 and the time is below 450;
    otherwise B when accuracy > 75 and the time is below 550; otherwise C
    when accuracy > 60; otherwise D.  The first rule that matches decides:
    (92, 300) is graded S and (92, 400) is graded A. *)
Theorem grade_priority_rules :
  (forall a t : Q,
      let s_rule := (90 < a /\ t < 350)%Q in
      let a_rule := (85 < a /\ t < 450)%Q in
      let b_rule := (75 < a /\ t < 550)%Q in
      let c_rule := (60 < a)%Q in
      (s_rule -> grade_of a t = S_grade)
      /\ (~ s_rule -> a_rule -> grade_of a t = A_grade)
      /\ (~ s_rule -> ~ a_rule -> b_rule -> grade_of a t = B_grade)
      /\ (~ s_rule -> ~ a_rule -> ~ b_rule -> c_rule ->
          grade_of a t = C_grade)
      /\ (~ s_rule -> ~ a_rule -> ~ b_rule -> ~ c_rule ->
          grade_of a t = D_grade))
  /\ (forall st, grade st = grade_of (accuracy st) (avgReactionTime st))
  /\ grade_of 92 300 = S_grade
  /\ grade_of 92 400 = A_grade.
Proof.
  split; [| split; [reflexivity | split; reflexivity]].
  intros a t s_rule a_rule b_rule c_rule.
  subst s_rule a_rule b_rule c_rule. unfold grade_of.
  destruct (Qltb 90 a) eqn:E1, (Qltb t 350) eqn:E2,
           (Qltb 85 a) eqn:E3, (Qltb t 450) eqn:E4,
           (Qltb 75 a) eqn:E5, (Qltb t 550) eqn:E6,
           (Qltb 60 a) eqn:E7; simpl;
    rewrite <- ?Qltb_lt, ?E1, ?E2, ?E3, ?E4, ?E5, ?E6, ?E7;
    repeat split; intros;
    repeat match goal with
           | H : _ /\ _ |- _ => destruct H
           | H : ~ (true = true /\ true = true) |- _ =>
               exfalso; apply H; split; reflexivity
           | H : ~ true = true |- _ => exfalso; apply H; reflexivity
           end;
    try reflexivity; try discriminate.
Qed.

(* ================================================================== *)
(** ** Spawning *)

Lemma generateTarget_in_box (l : list TargetData) (d : Draw) :
  valid_draw d -> in_spawn_box (position (generateTarget l d)).
Proof.
  intros [[Hx0 Hx1] [Hy0 Hy1]].
  unfold in_spawn_box, generateTarget, SPAWN_AREA_WIDTH, SPAWN_DISTANCE.
  cbn [position]. change (10 / 2)%Q with (10 # 2)%Q.
  repeat split; try lra; reflexivity.
Qed.

Lemma generateTarget_ignores_list (l l' : list TargetData) (d : Draw) :
  generateTarget l d = generateTarget l' d.
Proof. reflexivity. Qed.

Lemma startGame_targets_length (ds : nat -> Draw) (s : AppState) :
  List.length (targets (startGame ds s)) = targetCount (settings s).
Proof. cbn [startGame targets]. now rewrite length_map, length_seq. Qed.

Lemma startGame_targets_in_box (ds : nat -> Draw) (s : AppState) :
  (forall i, valid_draw (ds i)) ->
  Forall (fun t => in_spawn_box (position t)) (targets (startGame ds s)).
Proof.
  intros Hds. cbn [startGame targets].
  apply Forall_forall. intros t Ht.
  apply in_map_iff in Ht. destruct Ht as [i [<- _]].
  now apply generateTarget_in_box.
Qed.

(* ================================================================== *)
(** ** Removing a target and spawning its replacement *)

Lemma filter_other_ids_absent (hit : string) (l : list TargetData) :
  ~ In hit (map id l) ->
  filter (fun t => negb (id t =? hit)%string) l = l.
Proof.
  induction l as [| t l IH]; intros Hn; [reflexivity |].
  cbn [filter]. cbn [map] in Hn.
  destruct (String.eqb_spec (id t) hit) as [E | E].
  - exfalso. apply Hn. now left.
  - cbn [negb]. f_equal. apply IH. intros Hi. apply Hn. now right.
Qed.

Lemma filter_other_ids_present (hit : string) (l : list TargetData) :
  NoDup (map id l) -> In hit (map id l) ->
  S (List.length (filter (fun t => negb (id t =? hit)%string) l))
  = List.length l.
Proof.
  induction l as [| t l IH]; intros Hnd Hin; [destruct Hin |].
  cbn [map] in Hnd, Hin. inversion Hnd as [| x xs Hnotin Hnd' Heq]; subst.
  cbn [filter].
  destruct (String.eqb_spec (id t) hit) as [E | E].
  - cbn [negb List.length]. f_equal. f_equal.
    apply filter_other_ids_absent. now rewrite <- E.
  - cbn [negb List.length]. f_equal. apply IH; [assumption |].
    destruct Hin as [Hin | Hin]; [contradiction | assumption].
Qed.

Lemma filter_other_ids_subset (hit : string) (l : list TargetData) (i : string) :
  In i (map id (filter (fun t => negb (id t =? hit)%string) l)) ->
  In i (map id l).
Proof.
  intros H. apply in_map_iff in H. destruct H as [t [<- Ht]].
  apply filter_In in Ht. apply in_map. apply Ht.
Qed.

Lemma filter_other_ids_NoDup (hit : string) (l : list TargetData) :
  NoDup (map id l) ->
  NoDup (map id (filter (fun t => negb (id t =? hit)%string) l)).
Proof.
  induction l as [| t l IH]; intros Hnd; [constructor |].
  cbn [map] in Hnd. inversion Hnd as [| x xs Hnotin Hnd' Heq]; subst.
  cbn [filter]. destruct (negb (id t =? hit)%string).
  - cbn [map]. constructor; [| now apply IH].
    intros Hi. apply Hnotin. eapply filter_other_ids_subset, Hi.
  - now apply IH.
Qed.

Lemma respawn_length_present (hit : string) (d : Draw) (l : list TargetData) :
  NoDup (map id l) -> In hit (map id l) ->
  List.length (respawn hit d l) = List.length l.
Proof.
  intros Hnd Hin. unfold respawn.
  rewrite length_app. cbn [List.length].
  rewrite <- (filter_other_ids_present hit l Hnd Hin). lia.
Qed.

Lemma respawn_NoDup (hit : string) (d : Draw) (l : list TargetData) :
  NoDup (map id l) -> ~ In (rand_id d) (map id l) ->
  NoDup (map id (respawn hit d l)).
Proof.
  intros Hnd Hfresh. unfold respawn.
  rewrite map_app. cbn [map generateTarget id].
  apply NoDup_app; [now apply filter_other_ids_NoDup | repeat constructor; auto |].
  intros a Ha [<- | []]. apply Hfresh. eapply filter_other_ids_subset, Ha.
Qed.

Lemma respawn_in_box (hit : string) (d : Draw) (l : list TargetData) :
  valid_draw d ->
  Forall (fun t => in_spawn_box (position t)) l ->
  Forall (fun t => in_spawn_box (position t)) (respawn hit d l).
Proof.
  intros Hd Hl. unfold respawn. apply Forall_app. split.
  - apply Forall_forall. intros t Ht. apply filter_In in Ht.
    rewrite Forall_forall in Hl. apply Hl, Ht.
  - constructor; [now apply generateTarget_in_box | constructor].
Qed.

(* ================================================================== *)
(** ** The hit search *)

Lemma visit_miss (ray : Ray) (size : Q) (acc : Hit) (t : TargetData) :
  intersectsSphere ray (hitbox size t) = false ->
  visit ray size acc t = acc.
Proof. unfold visit, hitbox. intros ->. reflexivity. Qed.

(** One target: the result is the old triple or the new target, and its
    distance is at most the old and, if the target is intersected, at most
    the target's. *)
Lemma visit_cases (ray : Ray) (size : Q) (acc : Hit) (t : TargetData) :
  intersectsSphere ray (hitbox size t) = true ->
  let dist := distanceTo (position t) (origin ray) in
  exists t1 d1,
    visit ray size acc t = Some (t1, d1)
    /\ (d1 <= dist)%Q
    /\ ((t1 = t /\ d1 = dist) \/ acc = Some (t1, d1))
    /\ (forall ta da, acc = Some (ta, da) -> (d1 <= da)%Q).
Proof.
  intros Hhit dist. unfold visit. fold (hitbox size t). rewrite Hhit.
  fold dist. destruct acc as [[ta da] |]; cbn [minDistance lt_ext].
  - destruct (Qltb dist da) eqn:E.
    + exists t, dist. apply Qltb_lt in E.
      split; [reflexivity | split; [apply Qle_refl | split; [now left |]]].
      intros ? ? [= _ <-]. now apply Qlt_le_weak.
    + exists ta, da. apply Qltb_ge in E.
      split; [reflexivity | split; [assumption | split; [now right |]]].
      intros ? ? [= _ <-]. apply Qle_refl.
  - exists t, dist.
    split; [reflexivity | split; [apply Qle_refl | split; [now left |]]].
    intros ? ? [=].
Qed.

(** The loop from any starting triple. *)
Lemma visit_fold_spec (ray : Ray) (size : Q) (l : list TargetData) :
  forall acc : Hit,
    match fold_left (visit ray size) l acc with
    | None =>
        acc = None
        /\ forall t, In t l -> intersectsSphere ray (hitbox size t) = false
    | Some (t, d) =>
        (acc = Some (t, d)
         \/ (In t l /\ intersectsSphere ray (hitbox size t) = true
             /\ d = distanceTo (position t) (origin ray)))
        /\ (forall t', In t' l ->
                       intersectsSphere ray (hitbox size t') = true ->
                       (d <= distanceTo (position t') (origin ray))%Q)
        /\ (forall ta da, acc = Some (ta, da) -> (d <= da)%Q)
    end.
Proof.
  induction l as [| t0 l IH]; intros acc; cbn [fold_left].
  - destruct acc as [[t d] |].
    + split; [now left | split].
      * intros ? [].
      * intros ? ? [= _ <-]. apply Qle_refl.
    + split; [reflexivity | intros ? []].
  - specialize (IH (visit ray size acc t0)).
    destruct (intersectsSphere ray (hitbox size t0)) eqn:Hhit.
    + destruct (visit_cases ray size acc t0 Hhit)
        as [t1 [d1 [Hv [Hle [Hsrc Hacc]]]]].
      rewrite Hv in IH |- *.
      destruct (fold_left (visit ray size) l (Some (t1, d1)))
        as [[t d] |].
      * destruct IH as [Hfrom [Hmin Hle1]].
        assert (Hd : (d <= d1)%Q) by (apply (Hle1 t1 d1); reflexivity).
        split; [| split].
        -- destruct Hfrom as [[= -> ->] | [Hin [Hi Hd']]].
           ++ destruct Hsrc as [[-> ->] | Hsrc].
              ** right. split; [now left | split; [assumption | reflexivity]].
              ** now left.
           ++ right. split; [now right | split; assumption].
        -- intros t' [<- | Hin] Hi.
           ++ eapply Qle_trans; eassumption.
           ++ now apply Hmin.
        -- intros ta da Ha. eapply Qle_trans; [exact Hd |].
           now apply (Hacc ta da).
      * destruct IH as [[=] _].
    + rewrite (visit_miss ray size acc t0 Hhit) in IH |- *.
      destruct (fold_left (visit ray size) l acc) as [[t d] |].
      * destruct IH as [Hfrom [Hmin Hle1]].
        split; [| split].
        -- destruct Hfrom as [-> | [Hin [Hi Hd']]]; [now left |].
           right. split; [now right | split; assumption].
        -- intros t' [<- | Hin] Hi; [congruence | now apply Hmin].
        -- assumption.
      * destruct IH as [-> Hno]. split; [reflexivity |].
        intros t [<- | Hin]; [assumption | now apply Hno].
Qed.

Lemma resolve_spec (ray : Ray) (size : Q) (l : list TargetData) :
  match resolve ray l size with
  | None => forall t, In t l -> intersectsSphere ray (hitbox size t) = false
  | Some (t, d) =>
      In t l /\ intersectsSphere ray (hitbox size t) = true
      /\ d = distanceTo (position t) (origin ray)
      /\ (forall t', In t' l ->
                     intersectsSphere ray (hitbox size t') = true ->
                     (d <= distanceTo (position t') (origin ray))%Q)
  end.
Proof.
  unfold resolve. pose proof (visit_fold_spec ray size l None) as H.
  destruct (fold_left (visit ray size) l None) as [[t d] |].
  - destruct H as [[[=] | [Hin [Hi Hd]]] [Hmin _]]. auto.
  - apply H.
Qed.

Lemma resolve_hit_in (ray : Ray) (size : Q) (l : list TargetData)
    (t : TargetData) (d : Q) :
  resolve ray l size = Some (t, d) -> In t l.
Proof.
  intros H. pose proof (resolve_spec ray size l) as S. rewrite H in S.
  apply S.
Qed.

(* ================================================================== *)
(** ** What a shot changes *)

Lemma handleShoot_frame (ray : Ray) (now : Z) (d : Draw) (s : AppState) :
  let s' := handleShoot ray now d s in
  gameState s' = gameState s /\ settings s' = settings s
  /\ timeLeft s' = timeLeft s.
Proof.
  unfold handleShoot.
  destruct (hitId _) as [i |]; [destruct (truthy _) |]; repeat split.
Qed.

Lemma handleShoot_stats (ray : Ray) (now : Z) (d : Draw) (s : AppState) :
  stats (handleShoot ray now d s)
  = updateStats (settings s) (timeLeft s) now
      (resolve ray (targets s) (targetSize (settings s))) (stats s).
Proof.
  unfold handleShoot.
  destruct (hitId _) as [i |]; [destruct (truthy _) |]; reflexivity.
Qed.

Lemma handleShoot_targets (ray : Ray) (now : Z) (d : Draw) (s : AppState) :
  let h := resolve ray (targets s) (targetSize (settings s)) in
  targets (handleShoot ray now d s)
  = match h with
    | Some (t, _) =>
        if truthy (hitId h) then respawn (id t) d (targets s) else targets s
    | None => targets s
    end.
Proof.
  unfold handleShoot.
  destruct (resolve ray (targets s) (targetSize (settings s)))
    as [[t dist] |]; cbn [hitId]; [| reflexivity].
  destruct (truthy (Some (id t))); reflexivity.
Qed.

(* ================================================================== *)
(** ** The statistics update *)

Lemma totalReaction_from (history : list HitData) (a : Z) :
  fold_left (fun acc h => acc + reactionTime h) history a
  = a + Zsum (map reactionTime history).
Proof.
  revert a. induction history as [| h l IH]; intros a; cbn.
  - lia.
  - rewrite IH. unfold Zsum. lia.
Qed.

Lemma totalReaction_Zsum (history : list HitData) :
  totalReaction history = Zsum (map reactionTime history).
Proof. unfold totalReaction. now rewrite totalReaction_from. Qed.

Lemma Zsum_app (l1 l2 : list Z) : Zsum (l1 ++ l2) = Zsum l1 + Zsum l2.
Proof. induction l1 as [| x l1 IH]; cbn; [reflexivity | unfold Zsum in *; lia]. Qed.

(** A shot that does not count as a hit. *)
Lemma updateStats_miss (cfg : GameSettings) (left now : Z) (h : Hit)
    (prev : ScoreStats) :
  truthy (hitId h) = false ->
  updateStats cfg left now h prev
  = {| score := score prev + 0;
       shotsFired := shotsFired prev + 1;
       shotsHit := shotsHit prev;
       accuracy :=
         if 0 <? shotsFired prev + 1
         then (inject_Z (shotsHit prev) / inject_Z (shotsFired prev + 1)
               * 100)%Q
         else 0%Q;
       avgReactionTime := avgReactionTime prev;
       hitHistory := hitHistory prev |}.
Proof.
  intros Hm. unfold updateStats. rewrite Hm.
  destruct h as [[t dist] |]; reflexivity.
Qed.

(** A shot that counts as a hit. *)
Lemma updateStats_hit (cfg : GameSettings) (left now : Z) (h : Hit)
    (prev : ScoreStats) :
  truthy (hitId h) = true ->
  exists t dist,
    h = Some (t, dist)
    /\ let newHistory :=
         hitHistory prev ++
           [{| time := duration cfg - left;
               reactionTime := now - spawnTime t;
               distance := dist |}] in
       updateStats cfg left now h prev
       = {| score := score prev + 100;
            shotsFired := shotsFired prev + 1;
            shotsHit := shotsHit prev + 1;
            accuracy :=
              if 0 <? shotsFired prev + 1
              then (inject_Z (shotsHit prev + 1)
                    / inject_Z (shotsFired prev + 1) * 100)%Q
              else 0%Q;
            avgReactionTime :=
              mean (map reactionTime newHistory);
            hitHistory := newHistory |}.
Proof.
  intros Hh. destruct h as [[t dist] |]; [| discriminate].
  exists t, dist. split; [reflexivity |].
  intros newHistory. unfold updateStats. rewrite Hh.
  unfold mean. fold newHistory.
  now rewrite totalReaction_Zsum, length_map.
Qed.

Lemma updateStats_accuracy_ok (cfg : GameSettings) (left now : Z) (h : Hit)
    (prev : ScoreStats) :
  accuracy_ok (updateStats cfg left now h prev).
Proof.
  unfold accuracy_ok.
  destruct (truthy (hitId h)) eqn:Hh.
  - destruct (updateStats_hit cfg left now h prev Hh) as [t [dist [_ ->]]].
    cbn [accuracy shotsFired shotsHit].
    destruct (Z.ltb_spec 0 (shotsFired prev + 1)); split; intros;
      try lia; reflexivity.
  - rewrite (updateStats_miss cfg left now h prev Hh).
    cbn [accuracy shotsFired shotsHit].
    destruct (Z.ltb_spec 0 (shotsFired prev + 1)); split; intros;
      try lia; reflexivity.
Qed.

Lemma updateStats_average_ok (cfg : GameSettings) (left now : Z) (h : Hit)
    (prev : ScoreStats) :
  average_ok prev -> average_ok (updateStats cfg left now h prev).
Proof.
  intros [H0 H1]. unfold average_ok.
  destruct (truthy (hitId h)) eqn:Hh.
  - destruct (updateStats_hit cfg left now h prev Hh) as [t [dist [_ ->]]].
    cbn [avgReactionTime hitHistory]. split; [| reflexivity].
    intros E. now apply app_eq_nil in E as [_ [=]].
  - rewrite (updateStats_miss cfg left now h prev Hh).
    cbn [avgReactionTime hitHistory]. now split.
Qed.

Lemma updateStats_counters_ok (cfg : GameSettings) (left now : Z) (h : Hit)
    (prev : ScoreStats) :
  counters_ok prev -> counters_ok (updateStats cfg left now h prev).
Proof.
  intros [Hle [Hlen Hsc]]. unfold counters_ok.
  destruct (truthy (hitId h)) eqn:Hh.
  - destruct (updateStats_hit cfg left now h prev Hh) as [t [dist [_ ->]]].
    cbn [score shotsFired shotsHit hitHistory].
    rewrite length_app. cbn [List.length]. lia.
  - rewrite (updateStats_miss cfg left now h prev Hh).
    cbn [score shotsFired shotsHit hitHistory]. lia.
Qed.

(* ================================================================== *)
(** ** Reachable states *)

(** What an event can do to the statistics. *)
Lemma step_stats_cases (s : AppState) (e : Event) :
  stats (step s e) = stats s
  \/ stats (step s e) = zeroStats
  \/ exists cfg left now h,
       stats (step s e) = updateStats cfg left now h (stats s).
Proof.
  destruct e; cbn [step]; unfold handleKeyDown, tick, resumeGame, quitToMenu;
    destruct (gameState s);
    try (left; reflexivity);
    try (right; left; reflexivity).
  - destruct (timeLeft s <=? 1); left; reflexivity.
  - right. right. rewrite handleShoot_stats. eauto.
Qed.

Lemma reachable_stats_ind (P : ScoreStats -> Prop) :
  P zeroStats ->
  (forall cfg left now h st, P st -> P (updateStats cfg left now h st)) ->
  forall s, reachable s -> P (stats s).
Proof.
  intros H0 Hup s Hr. induction Hr as [| s e Hr IH Hv]; [exact H0 |].
  destruct (step_stats_cases s e) as [-> | [-> | [cfg [left [now [h ->]]]]]];
    auto.
Qed.

Lemma reachable_accuracy_ok (s : AppState) :
  reachable s -> accuracy_ok (stats s).
Proof.
  apply reachable_stats_ind.
  - split; intros; [cbn in *; lia | reflexivity].
  - intros. apply updateStats_accuracy_ok.
Qed.

Lemma reachable_average_ok (s : AppState) :
  reachable s -> average_ok (stats s).
Proof.
  apply reachable_stats_ind.
  - split; intros H; [reflexivity | now destruct H].
  - intros. now apply updateStats_average_ok.
Qed.

Lemma reachable_counters_ok (s : AppState) :
  reachable s -> counters_ok (stats s).
Proof.
  apply reachable_stats_ind.
  - unfold counters_ok, zeroStats. cbn [score shotsFired shotsHit hitHistory List.length].
    lia.
  - intros. now apply updateStats_counters_ok.
Qed.

(** Case analysis on an event and the state it arrives in. *)
Ltac step_cases s e G :=
  destruct e; cbn [step];
  unfold handleKeyDown, tick, resumeGame, quitToMenu;
  destruct (gameState s) eqn:G.

Lemma reachable_clock_ok (s : AppState) : reachable s -> clock_ok s.
Proof.
  intros Hr. induction Hr as [| s e Hr IH Hv].
  - unfold clock_ok. cbn. split; [reflexivity | split; [lia |]].
    intros [[=] | [=]].
  - destruct IH as [Hd [Hb Hp]]. unfold clock_ok.
    step_cases s e G;
      try (destruct (handleShoot_frame raycaster now d s) as [-> [-> ->]]);
      try match goal with
          | |- context [timeLeft s <=? 1] =>
              destruct (Z.leb_spec (timeLeft s) 1)
          end;
      cbn [setGameState setTimeLeft setSettings startGame
           gameState settings timeLeft duration];
      rewrite ?G;
      (split; [assumption | split; [lia |]]);
      try (intros [[=] | [=]]; lia);
      try (intros _; apply Hp; auto).
Qed.

Lemma reachable_in_box (s : AppState) :
  reachable s -> Forall (fun t => in_spawn_box (position t)) (targets s).
Proof.
  intros Hr. induction Hr as [| s e Hr IH Hv]; [constructor |].
  step_cases s e G;
    try match goal with
        | |- context [timeLeft s <=? 1] => destruct (timeLeft s <=? 1)
        end;
    try exact IH;
    try (apply startGame_targets_in_box; exact Hv).
  rewrite handleShoot_targets.
  destruct (resolve raycaster (targets s) (targetSize (settings s)))
    as [[t dist] |]; [| exact IH].
  destruct (truthy _); [| exact IH].
  apply respawn_in_box; assumption.
Qed.

Lemma startGame_ids (ds : nat -> Draw) (s : AppState) :
  map id (targets (startGame ds s))
  = map (fun i => rand_id (ds i)) (seq 0 (targetCount (settings s))).
Proof. cbn [startGame targets]. now rewrite map_map. Qed.

Lemma startGame_live_ok (ds : nat -> Draw) (s : AppState) :
  fresh_event s (ClickStart ds) -> live_ok (startGame ds s).
Proof.
  intros Hf _. change (settings (startGame ds s)) with (settings s). split.
  - apply startGame_targets_length.
  - rewrite startGame_ids. exact Hf.
Qed.

Lemma handleShoot_live_ok (ray : Ray) (now : Z) (d : Draw) (s : AppState) :
  gameState s = PLAYING ->
  fresh_event s (MouseDown ray now d) ->
  live_ok s -> live_ok (handleShoot ray now d s).
Proof.
  intros Hg Hf Hl _. destruct Hl as [Hlen Hnd]; [now left |].
  destruct (handleShoot_frame ray now d s) as [_ [-> _]].
  rewrite handleShoot_targets.
  pose proof (resolve_hit_in ray (targetSize (settings s)) (targets s)) as Hin.
  destruct (resolve ray (targets s) (targetSize (settings s)))
    as [[t dist] |]; [| now split].
  destruct (truthy _); [| now split].
  assert (Hi : In (id t) (map id (targets s)))
    by (apply in_map; now apply (Hin t dist)).
  split.
  - now rewrite respawn_length_present.
  - now apply respawn_NoDup.
Qed.

Lemma reachable_fresh_live_ok (s : AppState) :
  reachable_fresh s -> live_ok s.
Proof.
  intros Hr. induction Hr as [| s e Hr IH Hv Hf].
  - intros [[=] | [=]].
  - destruct e; cbn [step].
    + (* KeyPause *)
      unfold handleKeyDown. destruct (gameState s) eqn:G; try exact IH;
        intros _; apply IH; rewrite G; auto.
    + (* TimerTick *)
      unfold tick. destruct (gameState s) eqn:G; try exact IH.
      destruct (timeLeft s <=? 1).
      * intros [[=] | [=]].
      * intros _. apply IH. rewrite G. auto.
    + (* MouseDown *)
      destruct (gameState s) eqn:G; try exact IH.
      now apply handleShoot_live_ok.
    + (* ClickStart *)
      destruct (gameState s) eqn:G; try exact IH;
        now apply startGame_live_ok.
    + (* ClickResume *)
      unfold resumeGame. destruct (gameState s) eqn:G; try exact IH.
      intros _. apply IH. rewrite G. auto.
    + (* ClickMenu *)
      unfold quitToMenu. destruct (gameState s) eqn:G; try exact IH;
        intros [[=] | [=]].
    + destruct (gameState s) eqn:G; try exact IH;
        unfold live_ok; cbn [setSettings gameState]; rewrite G;
        intros [[=] | [=]].
    + destruct (gameState s) eqn:G; try exact IH;
        unfold live_ok; cbn [setSettings gameState]; rewrite G;
        intros [[=] | [=]].
    + destruct (gameState s) eqn:G; try exact IH;
        unfold live_ok; cbn [setSettings gameState]; rewrite G;
        intros [[=] | [=]].
    + destruct (gameState s) eqn:G; try exact IH;
        unfold live_ok; cbn [setSettings gameState]; rewrite G;
        intros [[=] | [=]].
Qed.

Lemma reachable_fresh_reachable (s : AppState) :
  reachable_fresh s -> reachable s.
Proof. induction 1; [constructor | now constructor]. Qed.

Lemma reachable_run (s : AppState) (es : list Event) :
  reachable s -> Forall valid_event es -> reachable (run s es).
Proof.
  intros Hr Hes. revert s Hr. induction Hes as [| e es He Hes IH]; intros s Hr.
  - exact Hr.
  - cbn [run fold_left]. apply IH. now constructor.
Qed.

(* ================================================================== *)
(** ** Pausing *)

Lemma paused_step_passive (s : AppState) (e : Event) :
  gameState s = PAUSED -> passive e -> step s e = s.
Proof.
  intros Hg Hp. destruct e; try destruct Hp; cbn [step]; unfold tick;
    now rewrite Hg.
Qed.

Lemma paused_run_passive (s : AppState) (es : list Event) :
  gameState s = PAUSED -> Forall passive es -> run s es = s.
Proof.
  intros Hg Hes. induction Hes as [| e es He Hes IH]; [reflexivity |].
  cbn [run fold_left]. rewrite (paused_step_passive s e Hg He). exact IH.
Qed.

Lemma pause_resume_key (s : AppState) :
  gameState s = PLAYING -> handleKeyDown (handleKeyDown s) = s.
Proof.
  intros Hg. unfold handleKeyDown. rewrite Hg. cbn [setGameState gameState].
  destruct s; cbn in *. now subst.
Qed.

Lemma pause_resume_button (s : AppState) :
  gameState s = PLAYING -> resumeGame (handleKeyDown s) = s.
Proof.
  intros Hg. unfold handleKeyDown, resumeGame. rewrite Hg.
  destruct s; cbn in *. now subst.
Qed.

(* ================================================================== *)
(** ** The countdown *)

Lemma tick_not_playing (s : AppState) : gameState s <> PLAYING -> tick s = s.
Proof. unfold tick. destruct (gameState s); congruence. Qed.

Lemma ticks_not_playing (n : nat) (s : AppState) :
  gameState s <> PLAYING -> ticks n s = s.
Proof.
  intros Hg. induction n as [| n IH]; [reflexivity |].
  change (ticks (S n) s) with (tick (ticks n s)).
  rewrite IH. now apply tick_not_playing.
Qed.

Lemma tick_playing (s : AppState) :
  gameState s = PLAYING -> 1 <= timeLeft s ->
  timeLeft (tick s) = timeLeft s - 1
  /\ gameState (tick s) = (if timeLeft s =? 1 then FINISHED else PLAYING)
  /\ settings (tick s) = settings s /\ targets (tick s) = targets s
  /\ stats (tick s) = stats s.
Proof.
  intros Hg H1. unfold tick. rewrite Hg.
  destruct (Z.leb_spec (timeLeft s) 1), (Z.eqb_spec (timeLeft s) 1);
    cbn [setTimeLeft setGameState timeLeft gameState settings targets stats];
    repeat split; try lia; assumption.
Qed.

Lemma tick_nonneg (s : AppState) :
  gameState s = PLAYING -> 0 <= timeLeft (tick s).
Proof.
  intros Hg. unfold tick. rewrite Hg.
  destruct (Z.leb_spec (timeLeft s) 1); cbn [setTimeLeft timeLeft]; lia.
Qed.

Lemma ticks_succ (n : nat) (s : AppState) :
  ticks (S n) s = ticks n (tick s).
Proof. unfold ticks. now rewrite Nat.iter_succ_r. Qed.

(** From [n] seconds left, the first [n - 1] ticks count down and the
    [n]-th one ends the session; later ticks find nothing to do. *)
Lemma ticks_playing (n : nat) :
  forall (s : AppState) (k : nat),
    gameState s = PLAYING -> timeLeft s = Z.of_nat n -> (1 <= n)%nat ->
    (if (k <? n)%nat
     then gameState (ticks k s) = PLAYING
          /\ timeLeft (ticks k s) = Z.of_nat n - Z.of_nat k
     else gameState (ticks k s) = FINISHED /\ timeLeft (ticks k s) = 0).
Proof.
  induction n as [| n IH]; intros s k Hg Ht Hn; [lia |].
  destruct k as [| k].
  - cbn [Nat.ltb Nat.leb]. change (ticks 0 s) with s.
    split; [assumption | lia].
  - rewrite ticks_succ.
    destruct (tick_playing s Hg ltac:(lia)) as [Ht' [Hg' _]].
    destruct (Nat.eq_dec n 0) as [-> | Hn0].
    + rewrite Ht in Hg'. cbn in Hg'. cbn [Nat.ltb Nat.leb].
      rewrite ticks_not_playing by congruence.
      split; [assumption | lia].
    + assert (E : (timeLeft s =? 1) = false) by (apply Z.eqb_neq; lia).
      rewrite E in Hg'.
      specialize (IH (tick s) k Hg' ltac:(lia) ltac:(lia)).
      change (S k <? S n)%nat with (k <? n)%nat.
      destruct (k <? n)%nat; [| exact IH].
      destruct IH as [IH1 IH2]. split; [exact IH1 | lia].
Qed.

(* ================================================================== *)
(** ** Sequences of shots *)

Lemma scoreShot_history (st : ScoreStats) (sh : Shot) :
  map reactionTime (hitHistory (scoreShot st sh))
  = map reactionTime (hitHistory st) ++ hitReactions [sh].
Proof.
  unfold scoreShot, hitReactions. cbn [flat_map]. rewrite app_nil_r.
  destruct (truthy (hitId (shot_hit sh))) eqn:Hh.
  - destruct (updateStats_hit (shot_settings sh) (shot_timeLeft sh)
                (shot_now sh) (shot_hit sh) st Hh) as [t [dist [E ->]]].
    rewrite E. cbn [hitHistory]. now rewrite map_app.
  - rewrite (updateStats_miss _ _ _ _ st Hh). cbn [hitHistory].
    destruct (shot_hit sh) as [[t dist] |]; now rewrite app_nil_r.
Qed.

Lemma scoreShot_counters (st : ScoreStats) (sh : Shot) :
  shotsFired (scoreShot st sh) = shotsFired st + 1
  /\ shotsHit (scoreShot st sh)
     = shotsHit st + Z.of_nat (List.length (hitReactions [sh])).
Proof.
  unfold scoreShot, hitReactions. cbn [flat_map]. rewrite app_nil_r.
  destruct (truthy (hitId (shot_hit sh))) eqn:Hh.
  - destruct (updateStats_hit (shot_settings sh) (shot_timeLeft sh)
                (shot_now sh) (shot_hit sh) st Hh) as [t [dist [E ->]]].
    rewrite E. cbn [shotsFired shotsHit List.length]. lia.
  - rewrite (updateStats_miss _ _ _ _ st Hh). cbn [shotsFired shotsHit].
    destruct (shot_hit sh) as [[t dist] |]; cbn [List.length]; lia.
Qed.

Lemma hitReactions_cons (sh : Shot) (shots : list Shot) :
  hitReactions (sh :: shots) = hitReactions [sh] ++ hitReactions shots.
Proof. unfold hitReactions. cbn [flat_map]. now rewrite app_nil_r. Qed.

Lemma scoreShots_spec (shots : list Shot) :
  forall st : ScoreStats,
    map reactionTime (hitHistory (scoreShots shots st))
    = map reactionTime (hitHistory st) ++ hitReactions shots
    /\ shotsFired (scoreShots shots st)
       = shotsFired st + Z.of_nat (List.length shots)
    /\ shotsHit (scoreShots shots st)
       = shotsHit st + Z.of_nat (List.length (hitReactions shots)).
Proof.
  induction shots as [| sh shots IH]; intros st.
  - cbn [scoreShots fold_left hitReactions flat_map List.length].
    rewrite app_nil_r. split; [reflexivity | split; lia].
  - cbn [scoreShots fold_left]. fold (scoreShots shots (scoreShot st sh)).
    destruct (IH (scoreShot st sh)) as [H1 [H2 H3]].
    destruct (scoreShot_counters st sh) as [C1 C2].
    rewrite H1, H2, H3, C1, C2, scoreShot_history,
      (hitReactions_cons sh shots).
    rewrite <- app_assoc, length_app. cbn [List.length].
    split; [reflexivity | split; lia].
Qed.

Lemma scoreShots_ok (shots : list Shot) :
  forall st : ScoreStats,
    accuracy_ok st -> average_ok st ->
    accuracy_ok (scoreShots shots st) /\ average_ok (scoreShots shots st).
Proof.
  induction shots as [| sh shots IH]; intros st Ha Hm; [now split |].
  cbn [scoreShots fold_left]. apply IH.
  - apply updateStats_accuracy_ok.
  - now apply updateStats_average_ok.
Qed.

Lemma zeroStats_ok : accuracy_ok zeroStats /\ average_ok zeroStats.
Proof.
  split; split; cbn; intros; try lia; try reflexivity; congruence.
Qed.

(* ================================================================== *)
(** ** The properties of the specification *)

(** C3.  The hit search tests the ray against the sphere of radius
    [targetSize * 1.1] around each target's position.  If no sphere is
    intersected it finds nothing; otherwise it returns an intersected target
    whose center is nearest to the ray's origin, its id, and the distance
    from that center to the origin.  A shot changes neither the game state,
    the settings nor the countdown, and the target list it leaves is the one
    it found or the respawn update of it. *)
Theorem hit_resolution :
  forall (ray : Ray) (l : list TargetData) (size : Q),
    let r := resolve ray l size in
    (forall t, radius (hitbox size t) = (size * 1.1)%Q
               /\ center (hitbox size t) = position t)
    /\ ((forall t, In t l -> intersectsSphere ray (hitbox size t) = false) ->
        r = None /\ hitId r = None /\ hitTarget r = None
        /\ minDistance r = Infinity)
    /\ ((exists t, In t l /\ intersectsSphere ray (hitbox size t) = true) ->
        exists t d,
          r = Some (t, d) /\ hitId r = Some (id t) /\ hitTarget r = Some t
          /\ minDistance r = Finite d
          /\ In t l /\ intersectsSphere ray (hitbox size t) = true
          /\ d = distanceTo (position t) (origin ray)
          /\ forall t', In t' l ->
                        intersectsSphere ray (hitbox size t') = true ->
                        (d <= distanceTo (position t') (origin ray))%Q)
    /\ (forall now d s,
          let s' := handleShoot ray now d s in
          gameState s' = gameState s /\ settings s' = settings s
          /\ timeLeft s' = timeLeft s
          /\ (targets s' = targets s
              \/ exists t, In t (targets s)
                           /\ targets s' = respawn (id t) d (targets s))).
Proof.
  intros ray l size r. split; [intros t; split; reflexivity |].
  pose proof (resolve_spec ray size l) as Hs. fold r in Hs.
  split; [| split].
  - intros Hno. destruct r as [[t d] |].
    + destruct Hs as [Hin [Hi _]]. rewrite (Hno t Hin) in Hi. discriminate.
    + repeat split.
  - intros [t0 [Hin0 Hi0]]. destruct r as [[t d] |].
    + exists t, d. destruct Hs as [Hin [Hi [Hd Hmin]]].
      cbn [hitId hitTarget minDistance]. repeat split; assumption.
    + rewrite (Hs t0 Hin0) in Hi0. discriminate.
  - intros now d s s'. subst s'.
    destruct (handleShoot_frame ray now d s) as [Hg [Hc Ht]].
    repeat (split; [assumption |]).
    rewrite handleShoot_targets.
    pose proof (resolve_hit_in ray (targetSize (settings s)) (targets s))
      as Hin.
    destruct (resolve ray (targets s) (targetSize (settings s)))
      as [[t dist] |]; [| now left].
    destruct (truthy _); [| now left].
    right. exists t. split; [now apply (Hin t dist) | reflexivity].
Qed.

(** The statistics update by the flag [isHit] of the code, which is
    [!!hitId].  Every shot adds 1 to [shotsFired]; with the flag set the
    shot adds 1 to [shotsHit] and 100 to [score] and appends to
    [hitHistory] the record of the elapsed session time, of the reaction
    time [now - spawnTime] of the target found and of its distance; with
    the flag unset [shotsHit], [score] and [hitHistory] stay as they
    were. *)
Theorem shot_updates_stats :
  forall (ray : Ray) (now : Z) (d : Draw) (s : AppState),
    let h := resolve ray (targets s) (targetSize (settings s)) in
    let isHit := truthy (hitId h) in
    let st := stats s in
    let st' := stats (handleShoot ray now d s) in
    shotsFired st' = shotsFired st + 1
    /\ (isHit = true ->
        exists t dist,
          h = Some (t, dist) /\ In t (targets s)
          /\ shotsHit st' = shotsHit st + 1
          /\ score st' = score st + 100
          /\ hitHistory st'
             = hitHistory st ++
                 [{| time := duration (settings s) - timeLeft s;
                     reactionTime := now - spawnTime t;
                     distance := dist |}])
    /\ (isHit = false ->
        shotsHit st' = shotsHit st /\ score st' = score st
        /\ hitHistory st' = hitHistory st).
Proof.
  intros ray now d s h isHit st st'. subst st'.
  rewrite handleShoot_stats. fold h. fold st.
  split; [| split].
  - destruct isHit eqn:Hh; subst isHit.
    + destruct (updateStats_hit (settings s) (timeLeft s) now h st Hh)
        as [t [dist [_ ->]]]. reflexivity.
    + now rewrite (updateStats_miss _ _ _ _ st Hh).
  - intros Hh. subst isHit.
    destruct (updateStats_hit (settings s) (timeLeft s) now h st Hh)
      as [t [dist [E ->]]].
    exists t, dist. split; [exact E |]. split.
    + now apply (resolve_hit_in ray (targetSize (settings s)) _ t dist).
    + repeat split.
  - intros Hh. subst isHit. rewrite (updateStats_miss _ _ _ _ st Hh).
    cbn [shotsHit score hitHistory]. repeat split. lia.
Qed.

(** C5.  After a shot the stored accuracy is [shotsHit / shotsFired * 100]
    when [shotsFired > 0] and 0 otherwise; the reset statistics have
    [shotsFired = 0] and accuracy 0; and in every reachable state the
    accuracy is [shotsHit / shotsFired * 100] when [shotsFired > 0] and 0
    when [shotsFired = 0]. *)
Theorem accuracy_formula_zero_guard :
  (forall cfg left now h prev,
      let st := updateStats cfg left now h prev in
      (0 < shotsFired st ->
       (accuracy st
        == inject_Z (shotsHit st) / inject_Z (shotsFired st) * 100)%Q)
      /\ (shotsFired st <= 0 -> (accuracy st == 0)%Q))
  /\ (shotsFired zeroStats = 0 /\ (accuracy zeroStats == 0)%Q)
  /\ (forall s, reachable s ->
                0 <= shotsFired (stats s)
                /\ (0 < shotsFired (stats s) ->
                    (accuracy (stats s)
                     == inject_Z (shotsHit (stats s))
                        / inject_Z (shotsFired (stats s)) * 100)%Q)
                /\ (shotsFired (stats s) = 0 ->
                    (accuracy (stats s) == 0)%Q)).
Proof.
  split; [| split].
  - intros. apply updateStats_accuracy_ok.
  - split; reflexivity.
  - intros s Hr. destruct (reachable_accuracy_ok s Hr) as [Hp Hz].
    destruct (reachable_counters_ok s Hr) as [Hc _].
    split; [lia | split; [exact Hp |]].
    intros E. apply Hz. lia.
Qed.

(** C6.  The average reaction time is the mean of the reaction times of
    the hits: in every reachable state with a hit, and after any sequence
    of shots from the reset statistics, [avgReactionTime] is the sum of
    the reaction times in [hitHistory] divided by their number, and a hit
    recomputes it from the whole history.  Ten shots of which seven hit
    with reaction times 200, 250, 300, 150, 400, 350, 280 give
    [shotsFired = 10], [shotsHit = 7], accuracy 70 and the average 1930/7,
    which is 275.71 to two decimals. *)
Theorem average_reaction_is_mean :
  (forall s, reachable s -> hitHistory (stats s) <> [] ->
             (avgReactionTime (stats s)
              == mean (map reactionTime (hitHistory (stats s))))%Q)
  /\ (forall cfg left now h prev,
         truthy (hitId h) = true ->
         let st := updateStats cfg left now h prev in
         (avgReactionTime st == mean (map reactionTime (hitHistory st)))%Q)
  /\ (forall shots,
         let st := scoreShots shots zeroStats in
         map reactionTime (hitHistory st) = hitReactions shots
         /\ (hitReactions shots <> [] ->
             (avgReactionTime st == mean (hitReactions shots))%Q))
  /\ (forall shots,
         List.length shots = 10%nat ->
         hitReactions shots = [200; 250; 300; 150; 400; 350; 280] ->
         let st := scoreShots shots zeroStats in
         shotsFired st = 10 /\ shotsHit st = 7
         /\ (accuracy st == 70)%Q
         /\ (avgReactionTime st == 1930 # 7)%Q
         /\ (275.705 <= avgReactionTime st /\ avgReactionTime st < 275.715)%Q).
Proof.
  assert (Hseq : forall shots,
             let st := scoreShots shots zeroStats in
             map reactionTime (hitHistory st) = hitReactions shots
             /\ (hitReactions shots <> [] ->
                 avgReactionTime st = mean (hitReactions shots))).
  { intros shots st. subst st.
    destruct (scoreShots_spec shots zeroStats) as [Hh _].
    cbn [zeroStats hitHistory map app] in Hh. split; [exact Hh |].
    intros Hne. destruct zeroStats_ok as [Ha Hm].
    destruct (scoreShots_ok shots zeroStats Ha Hm) as [_ [_ Hav]].
    rewrite <- Hh. apply Hav. intros E. apply Hne. rewrite <- Hh, E.
    reflexivity. }
  split; [| split; [| split]].
  - intros s Hr Hne. destruct (reachable_average_ok s Hr) as [_ H].
    rewrite (H Hne). reflexivity.
  - intros cfg left now h prev Hh st. subst st.
    destruct (updateStats_hit cfg left now h prev Hh) as [t [dist [_ ->]]].
    reflexivity.
  - intros shots st. destruct (Hseq shots) as [H1 H2].
    split; [exact H1 |]. intros Hne. subst st. rewrite (H2 Hne). reflexivity.
  - intros shots Hlen Hre st.
    destruct (Hseq shots) as [_ Hav]. fold st in Hav.
    destruct (scoreShots_spec shots zeroStats) as [_ [Hf Hhit]].
    fold st in Hf, Hhit. rewrite Hlen in Hf. rewrite Hre in Hhit, Hav.
    cbn in Hf, Hhit.
    destruct zeroStats_ok as [Ha Hm].
    destruct (scoreShots_ok shots zeroStats Ha Hm) as [[Hacc _] _].
    fold st in Hacc. rewrite Hf, Hhit in Hacc.
    rewrite Hav by discriminate.
    split; [exact Hf | split; [exact Hhit | split; [| split]]].
    + rewrite Hacc by lia. reflexivity.
    + reflexivity.
    + split; [discriminate | reflexivity].
Qed.

(** C8.  While the game is [PLAYING] and at least one second is left, as
    in every reachable [PLAYING] state, a tick takes exactly 1 from
    [timeLeft]; the result is never negative; the tick that reaches 0 is the
    one that moves to [FINISHED], and in no other state does a tick do
    anything: from [n] seconds the first [n - 1] ticks leave the game
    [PLAYING], the [n]-th finishes it, and every later tick finds it
    [FINISHED] with [timeLeft = 0].  With [duration = 5], five ticks after
    [startGame] end in [FINISHED] with [timeLeft = 0]. *)
Theorem countdown_clock :
  (forall s, gameState s = PLAYING -> 1 <= timeLeft s ->
             timeLeft (tick s) = timeLeft s - 1
             /\ (gameState (tick s) = FINISHED <-> timeLeft (tick s) = 0)
             /\ (gameState (tick s) = PLAYING <-> 0 < timeLeft (tick s)))
  /\ (forall s, reachable s -> gameState s = PLAYING -> 1 <= timeLeft s)
  /\ (forall s, gameState s = PLAYING -> 0 <= timeLeft (tick s))
  /\ (forall s, gameState s <> PLAYING -> tick s = s)
  /\ (forall s n k,
         gameState s = PLAYING -> timeLeft s = Z.of_nat n -> (1 <= n)%nat ->
         if (k <? n)%nat
         then gameState (ticks k s) = PLAYING
              /\ timeLeft (ticks k s) = Z.of_nat n - Z.of_nat k
         else gameState (ticks k s) = FINISHED /\ timeLeft (ticks k s) = 0)
  /\ (forall ds s,
         duration (settings s) = 5 ->
         let s0 := startGame ds s in
         gameState s0 = PLAYING /\ timeLeft s0 = 5
         /\ gameState (ticks 4 s0) = PLAYING /\ timeLeft (ticks 4 s0) = 1
         /\ gameState (ticks 5 s0) = FINISHED /\ timeLeft (ticks 5 s0) = 0).
Proof.
  split; [| split; [| split; [| split; [| split]]]].
  - intros s Hg H1. destruct (tick_playing s Hg H1) as [Ht [Hg' _]].
    rewrite Hg', Ht. split; [reflexivity |].
    destruct (Z.eqb_spec (timeLeft s) 1) as [E | E]; split; split;
      intros H; try reflexivity; try discriminate; lia.
  - intros s Hr Hg. destruct (reachable_clock_ok s Hr) as [_ [_ Hp]].
    apply Hp. now left.
  - apply tick_nonneg.
  - apply tick_not_playing.
  - intros s n k. apply ticks_playing.
  - intros ds s Hd s0.
    assert (Hg : gameState s0 = PLAYING) by reflexivity.
    assert (Ht : timeLeft s0 = Z.of_nat 5) by (cbn; exact Hd).
    pose proof (ticks_playing 5 s0 4 Hg Ht ltac:(lia)) as H4.
    pose proof (ticks_playing 5 s0 5 Hg Ht ltac:(lia)) as H5.
    cbn [Nat.ltb Nat.leb] in H4, H5.
    destruct H4 as [H4a H4b], H5 as [H5a H5b].
    repeat split; try assumption.
Qed.

(** C9.  From a [PLAYING] state, the pause key gives a [PAUSED] state;
    while it is paused, timer firings and mouse buttons, however many,
    change nothing; and the pause key or the resume button then gives back
    the state at the moment of pausing: the same statistics, targets and
    [timeLeft], and [PLAYING]. *)
Theorem pause_preserves_session :
  forall (s : AppState) (es : list Event),
    gameState s = PLAYING -> Forall passive es ->
    let paused := handleKeyDown s in
    let later := run paused es in
    gameState paused = PAUSED
    /\ later = paused
    /\ stats paused = stats s /\ targets paused = targets s
    /\ timeLeft paused = timeLeft s
    /\ handleKeyDown later = s
    /\ resumeGame later = s
    /\ step later KeyPause = s
    /\ step later ClickResume = s.
Proof.
  intros s es Hg Hes paused later.
  assert (Hp : gameState paused = PAUSED)
    by (subst paused; unfold handleKeyDown; now rewrite Hg).
  assert (Hl : later = paused) by (now apply paused_run_passive).
  assert (Hk : handleKeyDown later = s)
    by (rewrite Hl; now apply pause_resume_key).
  assert (Hb : resumeGame later = s)
    by (rewrite Hl; now apply pause_resume_button).
  split; [exact Hp | split; [exact Hl |]].
  split; [| split; [| split]];
    try (subst paused; unfold handleKeyDown; rewrite Hg; reflexivity).
  split; [exact Hk | split; [exact Hb | split]].
  - exact Hk.
  - cbn [step]. rewrite Hl, Hp. rewrite <- Hl. exact Hb.
Qed.

(** C10.  Whatever the random numbers, a target made by [generateTarget]
    has x in [-SPAWN_AREA_WIDTH / 2, SPAWN_AREA_WIDTH / 2] = [-5, 5], y in
    [1.2, 3.7], a band 2.5 high that [SPAWN_AREA_HEIGHT] does not govern,
    and z = -SPAWN_DISTANCE = -12; so every live target of every reachable
    state is in that box. *)
Theorem spawn_position_bounds :
  (forall l d, valid_draw d ->
               in_spawn_box (position (generateTarget l d))
               /\ let '(x, y, z) := position (generateTarget l d) in
                  (-5 <= x /\ x <= 5)%Q /\ (1.2 <= y /\ y <= 3.7)%Q
                  /\ z = (-12)%Q)
  /\ (SPAWN_AREA_WIDTH / 2 == 5)%Q
  /\ (3.7 - 1.2 == 2.5)%Q /\ ~ (3.7 - 1.2 == SPAWN_AREA_HEIGHT)%Q
  /\ (forall s, reachable s ->
                forall t, In t (targets s) -> in_spawn_box (position t)).
Proof.
  split; [| split; [reflexivity | split; [reflexivity | split]]].
  - intros l d Hd. split; [now apply generateTarget_in_box |].
    destruct Hd as [[Hx0 Hx1] [Hy0 Hy1]].
    unfold generateTarget, SPAWN_AREA_WIDTH, SPAWN_DISTANCE. cbn [position].
    repeat split; try lra.
  - discriminate.
  - intros s Hr t Ht. pose proof (reachable_in_box s Hr) as H.
    rewrite Forall_forall in H. now apply H.
Qed.

(** C2, amended.  For an id that no element of the list has, the update
    keeps every element of the list, in order, and appends one newly
    generated target, so the count grows by one; nothing throws.  The list
    stays as it is when the update is not run: [handleShoot] runs it only
    for the id the hit search returned, and only if that id is truthy. *)
Theorem respawn_stale_id_appends :
  (forall (hit : string) (d : Draw) (l : list TargetData),
      ~ In hit (map id l) ->
      respawn hit d l = l ++ [generateTarget l d]
      /\ List.length (respawn hit d l) = S (List.length l))
  /\ (forall ray now d s,
         truthy (hitId (resolve ray (targets s) (targetSize (settings s))))
         = false ->
         targets (handleShoot ray now d s) = targets s).
Proof.
  split.
  - intros hit d l Hn. unfold respawn.
    rewrite (filter_other_ids_absent hit l Hn).
    split; [reflexivity |]. rewrite length_app. cbn [List.length]. lia.
  - intros ray now d s Hf. rewrite handleShoot_targets.
    destruct (resolve ray (targets s) (targetSize (settings s)))
      as [[t dist] |]; [| reflexivity].
    now rewrite Hf.
Qed.

(** C1, amended.  [startGame] creates [settings.targetCount] targets; a
    hit on a list whose ids are pairwise different removes one target and
    adds one, so the count stays; and in every state reached while each
    newly drawn id differed from the ids of the live targets, a [PLAYING]
    game has exactly [settings.targetCount] live targets. *)
Theorem live_target_count_fresh_ids :
  (forall ds s,
      gameState (startGame ds s) = PLAYING
      /\ List.length (targets (startGame ds s))
         = targetCount (settings (startGame ds s)))
  /\ (forall hit d l,
         NoDup (map id l) -> In hit (map id l) ->
         List.length (respawn hit d l) = List.length l)
  /\ (forall s, reachable_fresh s -> gameState s = PLAYING ->
                List.length (targets s) = targetCount (settings s)).
Proof.
  split; [| split].
  - intros ds s. split; [reflexivity |].
    change (settings (startGame ds s)) with (settings s).
    apply startGame_targets_length.
  - apply respawn_length_present.
  - intros s Hr Hg. apply (reachable_fresh_live_ok s Hr). now left.
Qed.

(* ================================================================== *)
(** ** Further properties of the session *)

Lemma step_settings_frame (s : AppState) (e : Event) :
  gameState s <> MENU -> settings (step s e) = settings s.
Proof.
  intros Hm. step_cases s e G; try congruence;
    try match goal with
        | |- context [timeLeft s <=? 1] => destruct (timeLeft s <=? 1)
        end;
    try reflexivity.
  now destruct (handleShoot_frame raycaster now d s) as [_ [-> _]].
Qed.

(** X1.  Outside the menu no event changes the settings, and over any
    sequence of events the settings can only differ at the end if the
    menu was visited. *)
Theorem settings_fixed_outside_menu :
  forall (s : AppState) (es : list Event),
    (forall k, gameState (run s (firstn k es)) <> MENU) ->
    settings (run s es) = settings s.
Proof.
  intros s es. revert s. induction es as [| e es IH]; intros s Hm.
  - reflexivity.
  - cbn [run fold_left]. fold (run (step s e) es).
    rewrite IH.
    + apply step_settings_frame. exact (Hm 0%nat).
    + intros k. exact (Hm (S k)).
Qed.

Lemma reachable_settings_ok (s : AppState) :
  reachable s -> settings_ok (settings s).
Proof.
  intros Hr. induction Hr as [| s e Hr IH Hv].
  - unfold settings_ok. cbn. unfold TARGET_RADIUS.
    repeat split; try lia; try lra.
  - destruct IH as [Hc [Hs [Hd Hsens]]].
    step_cases s e G;
      try match goal with
          | |- context [timeLeft s <=? 1] => destruct (timeLeft s <=? 1)
          end;
      try (destruct (handleShoot_frame raycaster now d s) as [_ [-> _]]);
      cbn [setGameState setTimeLeft setSettings startGame settings];
      unfold settings_ok;
      cbn [targetCount targetSize duration sensitivity];
      try (split; [exact Hc | split; [exact Hs | split; assumption]]).
    + split; [exact Hv | split; [exact Hs | split; assumption]].
    + split; [exact Hc | split; [exact Hv | split; assumption]].
Qed.

(** X2.  In every reachable state the settings are within the menu's
    ranges: between 1 and 10 targets, a target size between 0.2 and 1.5,
    and the duration and the sensitivity the program starts with, 60 and
    1, which no control changes. *)
Theorem reachable_settings_in_range :
  forall s : AppState,
    reachable s ->
    (1 <= targetCount (settings s) <= 10)%nat
    /\ (0.2 <= targetSize (settings s) /\ targetSize (settings s) <= 1.5)%Q
    /\ duration (settings s) = 60
    /\ sensitivity (settings s) = 1%Q.
Proof.
  intros s Hr. exact (reachable_settings_ok s Hr).
Qed.

Lemma respawn_length_le (hit : string) (d : Draw) (l : list TargetData) :
  In hit (map id l) ->
  (1 <= List.length (respawn hit d l) <= List.length l)%nat.
Proof.
  intros Hin. unfold respawn. rewrite length_app. cbn [List.length].
  split; [lia |].
  assert (H : (List.length (filter (fun t => negb (id t =? hit)%string) l)
               < List.length l)%nat).
  { clear d. induction l as [| t l IH]; [destruct Hin |].
    cbn [filter]. destruct (String.eqb_spec (id t) hit) as [E | E].
    - cbn [negb List.length].
      pose proof (filter_length_le (fun t => negb (id t =? hit)%string) l).
      lia.
    - cbn [negb List.length]. destruct Hin as [Hin | Hin]; [contradiction |].
      specialize (IH Hin). lia. }
  lia.
Qed.

(** X3.  Whatever ids are drawn, a running or paused session of a
    reachable state has at least one live target and at most
    [settings.targetCount], hence at most 10. *)
Theorem live_targets_bounded :
  forall s : AppState,
    reachable s ->
    gameState s = PLAYING \/ gameState s = PAUSED ->
    (1 <= List.length (targets s) <= targetCount (settings s))%nat
    /\ (List.length (targets s) <= 10)%nat.
Proof.
  assert (Hinv : forall s, reachable s -> live_bounded s).
  { intros s Hr. induction Hr as [| s e Hr IH Hv].
    - intros [[=] | [=]].
    - pose proof (reachable_settings_ok s Hr) as [Hc _].
      destruct e; cbn [step].
      + unfold handleKeyDown. destruct (gameState s) eqn:G; try exact IH;
          intros _; apply IH; rewrite G; auto.
      + unfold tick. destruct (gameState s) eqn:G; try exact IH.
        destruct (timeLeft s <=? 1).
        * intros [[=] | [=]].
        * intros _. apply IH. rewrite G. auto.
      + destruct (gameState s) eqn:G; try exact IH. intros _.
        destruct (handleShoot_frame raycaster now d s) as [_ [-> _]].
        rewrite handleShoot_targets.
        pose proof (resolve_hit_in raycaster (targetSize (settings s))
                      (targets s)) as Hin.
        assert (IH' := IH (or_introl G)).
        destruct (resolve raycaster (targets s) (targetSize (settings s)))
          as [[t dist] |]; [| exact IH'].
        destruct (truthy _); [| exact IH'].
        assert (Hi : In (id t) (map id (targets s)))
          by (apply in_map; now apply (Hin t dist)).
        pose proof (respawn_length_le (id t) d (targets s) Hi). lia.
      + destruct (gameState s) eqn:G; try exact IH; intros _;
          change (settings (startGame ds s)) with (settings s);
          rewrite startGame_targets_length; lia.
      + unfold resumeGame. destruct (gameState s) eqn:G; try exact IH.
        intros _. apply IH. rewrite G. auto.
      + unfold quitToMenu. destruct (gameState s) eqn:G; try exact IH;
          intros [[=] | [=]].
      + destruct (gameState s) eqn:G; try exact IH;
          unfold live_bounded; cbn [setSettings gameState]; rewrite G;
          intros [[=] | [=]].
      + destruct (gameState s) eqn:G; try exact IH;
          unfold live_bounded; cbn [setSettings gameState]; rewrite G;
          intros [[=] | [=]].
      + destruct (gameState s) eqn:G; try exact IH;
          unfold live_bounded; cbn [setSettings gameState]; rewrite G;
          intros [[=] | [=]].
      + destruct (gameState s) eqn:G; try exact IH;
          unfold live_bounded; cbn [setSettings gameState]; rewrite G;
          intros [[=] | [=]]. }
  intros s Hr Hg. pose proof (Hinv s Hr Hg) as H.
  pose proof (reachable_settings_ok s Hr) as [Hc _].
  split; [exact H | lia].
Qed.

Lemma Qdiv_unit_interval (h f : Z) :
  0 <= h <= f -> 0 < f ->
  (0 <= inject_Z h / inject_Z f * 100 /\ inject_Z h / inject_Z f * 100 <= 100)%Q.
Proof.
  intros Hh Hf.
  assert (Hf' : (0 < inject_Z f)%Q)
    by (change (inject_Z 0 < inject_Z f)%Q; now rewrite <- Zlt_Qlt).
  assert (H0 : (0 <= inject_Z h / inject_Z f)%Q).
  { apply Qle_shift_div_l; [exact Hf' |]. rewrite Qmult_0_l.
    change (inject_Z 0 <= inject_Z h)%Q. rewrite <- Zle_Qle. lia. }
  assert (H1 : (inject_Z h / inject_Z f <= 1)%Q).
  { apply Qle_shift_div_r; [exact Hf' |]. rewrite Qmult_1_l.
    rewrite <- Zle_Qle. lia. }
  split; lra.
Qed.

(** X4.  In every reachable state the counters agree with each other:
    [shotsHit] is the number of hit records and lies between 0 and
    [shotsFired], the score is 100 times [shotsHit], and the accuracy lies
    between 0 and 100. *)
Theorem reachable_score_consistent :
  forall s : AppState,
    reachable s ->
    0 <= shotsHit (stats s) <= shotsFired (stats s)
    /\ shotsHit (stats s) = Z.of_nat (List.length (hitHistory (stats s)))
    /\ score (stats s) = 100 * shotsHit (stats s)
    /\ (0 <= accuracy (stats s) /\ accuracy (stats s) <= 100)%Q.
Proof.
  intros s Hr.
  destruct (reachable_counters_ok s Hr) as [Hle [Hlen Hsc]].
  destruct (reachable_accuracy_ok s Hr) as [Hpos Hzero].
  repeat (split; [assumption |]).
  destruct (Z_lt_le_dec 0 (shotsFired (stats s))) as [Hf | Hf].
  - rewrite (Hpos Hf). now apply Qdiv_unit_interval.
  - rewrite (Hzero Hf). split; lra.
Qed.

Lemma StronglySorted_snoc (l : list Z) (y : Z) :
  StronglySorted Z.le l -> Forall (fun x => x <= y) l ->
  StronglySorted Z.le (l ++ [y]).
Proof.
  induction 1 as [| x l Hs IH Hx]; intros Hy; cbn [app].
  - repeat constructor.
  - inversion Hy as [| ? ? Hxy Hy']; subst. constructor.
    + now apply IH.
    + apply Forall_app. split; [assumption | now constructor].
Qed.

Lemma history_ok_frame (s s' : AppState) :
  stats s' = stats s -> duration (settings s') = duration (settings s) ->
  timeLeft s' <= timeLeft s ->
  history_ok s -> history_ok s'.
Proof.
  intros Hst Hd Ht [Hb Hs]. unfold history_ok. rewrite Hst, Hd.
  split; [| exact Hs].
  eapply Forall_impl; [| exact Hb]. cbn beta. intros h H. lia.
Qed.

Lemma reachable_history_ok (s : AppState) : reachable s -> history_ok s.
Proof.
  intros Hr. induction Hr as [| s e Hr IH Hv].
  - split; constructor.
  - pose proof (reachable_clock_ok s Hr) as [Hd [Hb Hp]].
    destruct e; cbn [step].
    + unfold handleKeyDown. destruct (gameState s); exact IH.
    + unfold tick. destruct (gameState s) eqn:G; try exact IH.
      destruct (Z.leb_spec (timeLeft s) 1);
        (apply (history_ok_frame s); [reflexivity | reflexivity | | exact IH]);
        cbn [setTimeLeft setGameState timeLeft]; lia.
    + destruct (gameState s) eqn:G; try exact IH.
      destruct IH as [Hbd Hso]. unfold history_ok.
      destruct (handleShoot_frame raycaster now d s) as [_ [-> ->]].
      rewrite handleShoot_stats.
      set (h := resolve raycaster (targets s) (targetSize (settings s))).
      destruct (truthy (hitId h)) eqn:Hh.
      * destruct (updateStats_hit (settings s) (timeLeft s) now h (stats s) Hh)
          as [t [dist [_ ->]]]. cbn [hitHistory].
        assert (H1 : 1 <= timeLeft s) by (apply Hp; auto).
        split.
        -- apply Forall_app. split; [exact Hbd |].
           constructor; [cbn [time]; lia | constructor].
        -- rewrite map_app. cbn [map time]. apply StronglySorted_snoc;
             [exact Hso |].
           apply Forall_map. eapply Forall_impl; [| exact Hbd].
           cbn beta. intros x Hx. lia.
      * rewrite (updateStats_miss _ _ _ _ (stats s) Hh). cbn [hitHistory].
        now split.
    + destruct (gameState s); try exact IH; split; constructor.
    + unfold resumeGame. destruct (gameState s); exact IH.
    + unfold quitToMenu. destruct (gameState s); exact IH.
    + destruct (gameState s); exact IH.
    + destruct (gameState s); exact IH.
    + destruct (gameState s); exact IH.
    + destruct (gameState s); exact IH.
Qed.

(** X5.  In every reachable state each hit record carries a session time
    between 0 and 59 seconds that is at most the time elapsed, 60 minus
    [timeLeft], and the records are in ascending order of time. *)
Theorem hit_history_times_ordered :
  forall s : AppState,
    reachable s ->
    (forall h, In h (hitHistory (stats s)) ->
               0 <= time h <= 59 /\ time h <= 60 - timeLeft s)
    /\ StronglySorted Z.le (map time (hitHistory (stats s))).
Proof.
  intros s Hr. destruct (reachable_history_ok s Hr) as [Hb Hs].
  destruct (reachable_clock_ok s Hr) as [Hd _].
  split; [| exact Hs].
  intros h Hin. rewrite Forall_forall in Hb. specialize (Hb h Hin). lia.
Qed.

(** X6.  An event changes the statistics in two ways only: a mouse button
    while [PLAYING] adds one shot and at most one hit record at the end of
    the history, and a start button outside [PLAYING] resets them; every
    other event leaves the statistics as they are. *)
Theorem stats_change_only_by_shot_or_start :
  forall (s : AppState) (e : Event),
    stats (step s e) = stats s
    \/ (gameState s = PLAYING
        /\ (exists ray now d, e = MouseDown ray now d)
        /\ shotsFired (stats (step s e)) = shotsFired (stats s) + 1
        /\ exists tail,
             hitHistory (stats (step s e)) = hitHistory (stats s) ++ tail
             /\ (List.length tail <= 1)%nat)
    \/ (gameState s <> PLAYING
        /\ (exists ds, e = ClickStart ds)
        /\ stats (step s e) = zeroStats).
Proof.
  intros s e. step_cases s e G;
    try match goal with
        | |- context [timeLeft s <=? 1] => destruct (timeLeft s <=? 1)
        end;
    try (left; reflexivity);
    try (right; right; split; [discriminate | split; [eauto | reflexivity]]).
  right. left. split; [reflexivity | split; [eauto |]].
  rewrite handleShoot_stats.
  set (h := resolve raycaster (targets s) (targetSize (settings s))).
  destruct (truthy (hitId h)) eqn:Hh.
  - destruct (updateStats_hit (settings s) (timeLeft s) now h (stats s) Hh)
      as [t [dist [_ ->]]]. cbn [shotsFired hitHistory].
    split; [reflexivity |]. eexists. split; [reflexivity | cbn; lia].
  - rewrite (updateStats_miss _ _ _ _ (stats s) Hh).
    cbn [shotsFired hitHistory]. split; [reflexivity |].
    exists []. split; [now rewrite app_nil_r | cbn; lia].
Qed.

(** X7.  When no session is running the keyboard, the timer and the
    mouse do nothing: in [FINISHED] every event but the two buttons of the
    report, and in [MENU] the pause key, the timer, the mouse and the
    buttons of other screens, leave the whole state as it is. *)
Theorem idle_states_ignore_input :
  forall (s : AppState) (e : Event),
    (gameState s = FINISHED
     /\ (forall ds, e <> ClickStart ds) /\ e <> ClickMenu)
    \/ (gameState s = MENU
        /\ (e = KeyPause \/ e = TimerTick \/ e = ClickResume \/ e = ClickMenu
            \/ exists ray now d, e = MouseDown ray now d)) ->
    step s e = s.
Proof.
  intros s e [[Hg [Hs Hm]] | [Hg He]].
  - destruct e; cbn [step]; unfold handleKeyDown, tick; rewrite Hg;
      try reflexivity.
    + now destruct (Hs ds).
    + now destruct Hm.
  - destruct He as [-> | [-> | [-> | [-> | [ray [now [d ->]]]]]]];
      cbn [step]; unfold handleKeyDown, tick; now rewrite Hg.
Qed.

(* ================================================================== *)
(** ** Further properties of the hit search and the respawn *)

Lemma resolve_snoc (ray : Ray) (size : Q) (l : list TargetData)
    (x : TargetData) :
  resolve ray (l ++ [x]) size = visit ray size (resolve ray l size) x.
Proof. unfold resolve. now rewrite fold_left_app. Qed.

(** X9.  Among the intersected targets the search returns the first, in
    list order, of those nearest to the origin: every intersected target
    before the one returned is strictly farther, every one after it is at
    least as far. *)
Theorem resolve_first_nearest :
  forall (ray : Ray) (size : Q) (l : list TargetData)
         (t : TargetData) (d : Q),
    resolve ray l size = Some (t, d) ->
    exists l1 l2,
      l = l1 ++ t :: l2
      /\ intersectsSphere ray (hitbox size t) = true
      /\ d = distanceTo (position t) (origin ray)
      /\ (forall t', In t' l1 ->
                     intersectsSphere ray (hitbox size t') = true ->
                     (d < distanceTo (position t') (origin ray))%Q)
      /\ (forall t', In t' l2 ->
                     intersectsSphere ray (hitbox size t') = true ->
                     (d <= distanceTo (position t') (origin ray))%Q).
Proof.
  intros ray size l. induction l as [| x l IH] using rev_ind; intros t d Hr.
  - discriminate Hr.
  - rewrite resolve_snoc in Hr.
    pose proof (resolve_spec ray size l) as Hs.
    destruct (intersectsSphere ray (hitbox size x)) eqn:Hx.
    + unfold visit in Hr. fold (hitbox size x) in Hr. rewrite Hx in Hr.
      destruct (resolve ray l size) as [[tr dr] |] eqn:Er;
        cbn [minDistance lt_ext] in Hr.
      * destruct (Qltb (distanceTo (position x) (origin ray)) dr) eqn:Elt.
        -- injection Hr as <- <-. exists l, [].
           split; [reflexivity | split; [exact Hx | split; [reflexivity |]]].
           destruct Hs as [_ [_ [_ Hmin]]]. apply Qltb_lt in Elt. split.
           ++ intros t' Hin Hi. eapply Qlt_le_trans; [exact Elt |].
              now apply Hmin.
           ++ intros t' [].
        -- injection Hr as <- <-.
           destruct (IH tr dr eq_refl) as [l1 [l2 [El [Hi [Hd [Hb Ha]]]]]].
           exists l1, (l2 ++ [x]). rewrite El, <- app_assoc.
           split; [reflexivity | split; [exact Hi | split; [exact Hd |]]].
           split; [exact Hb |].
           intros t' Hin Hi'. apply in_app_or in Hin.
           destruct Hin as [Hin | [<- | []]]; [now apply Ha |].
           now apply Qltb_ge in Elt.
      * injection Hr as <- <-. exists l, [].
        split; [reflexivity | split; [exact Hx | split; [reflexivity |]]].
        split.
        -- intros t' Hin Hi. rewrite (Hs t' Hin) in Hi. discriminate Hi.
        -- intros t' [].
    + rewrite (visit_miss ray size _ x Hx) in Hr.
      destruct (IH t d Hr) as [l1 [l2 [El [Hi [Hd [Hb Ha]]]]]].
      exists l1, (l2 ++ [x]). rewrite El, <- app_assoc.
      split; [reflexivity | split; [exact Hi | split; [exact Hd |]]].
      split; [exact Hb |].
      intros t' Hin Hi'. apply in_app_or in Hin.
      destruct Hin as [Hin | [<- | []]]; [now apply Ha | congruence].
Qed.

(** X8.  On a list with pairwise different ids, the update for the id of
    one of its targets and a newly drawn id that no target has keeps the
    count and the distinctness of the ids; the hit id is gone, the new id
    is there, every other id stays, and every other target stays. *)
Theorem respawn_replaces_hit_target :
  forall (hit : string) (d : Draw) (l : list TargetData),
    NoDup (map id l) -> In hit (map id l) -> ~ In (rand_id d) (map id l) ->
    let l' := respawn hit d l in
    List.length l' = List.length l
    /\ NoDup (map id l')
    /\ ~ In hit (map id l')
    /\ (forall i, In i (map id l')
                  <-> (In i (map id l) /\ i <> hit) \/ i = rand_id d)
    /\ (forall t, In t l -> id t <> hit -> In t l').
Proof.
  intros hit d l Hnd Hin Hfresh l'.
  assert (Hmem : forall i, In i (map id l')
                           <-> (In i (map id l) /\ i <> hit) \/ i = rand_id d).
  { intros i. subst l'. unfold respawn. rewrite map_app, in_app_iff.
    cbn [map generateTarget id In]. split.
    - intros [H | [H | []]]; [left | now right].
      apply in_map_iff in H. destruct H as [t [<- Ht]].
      apply filter_In in Ht. destruct Ht as [Ht Hneq].
      split; [now apply in_map |].
      destruct (String.eqb_spec (id t) hit); [discriminate | assumption].
    - intros [[H Hneq] | ->]; [left | right; now left].
      apply in_map_iff in H. destruct H as [t [<- Ht]].
      apply in_map. apply filter_In. split; [exact Ht |].
      destruct (String.eqb_spec (id t) hit); [contradiction | reflexivity]. }
  split; [now apply respawn_length_present |].
  split; [now apply respawn_NoDup |].
  split; [| split; [exact Hmem |]].
  - intros H. apply Hmem in H. destruct H as [[_ H] | H]; [now apply H |].
    apply Hfresh. now rewrite <- H.
  - intros t Ht Hneq. subst l'. unfold respawn. apply in_or_app. left.
    apply filter_In. split; [exact Ht |].
    destruct (String.eqb_spec (id t) hit); [contradiction | reflexivity].
Qed.

(* ================================================================== *)
(** ** Further properties of the report *)

(** Every comparison of the grade rule, decided. *)
Ltac grade_cases :=
  repeat match goal with
         | |- context [Qltb ?x ?y] =>
             let E := fresh "E" in
             destruct (Qltb x y) eqn:E;
             [apply Qltb_lt in E | apply Qltb_ge in E];
             try (exfalso; lra); cbn [andb grade_rank]
         end.

(** X10.  The grade is monotone: with an accuracy at least as high and an
    average reaction time at most as long, the grade is at least as good. *)
Theorem grade_monotone :
  forall a a' t t' : Q,
    (a <= a')%Q -> (t' <= t)%Q ->
    (grade_rank (grade_of a t) <= grade_rank (grade_of a' t'))%nat.
Proof.
  intros a a' t t' Ha Ht. unfold grade_of. grade_cases; lia.
Qed.

(** X11.  The reaction time decides between C and the better grades only:
    an accuracy of at most 60 is graded D and one above 60 at least C,
    whatever the reaction time; an average reaction time of 550 or more
    is graded C at best, whatever the accuracy; and the reset statistics
    are graded D. *)
Theorem grade_floor_and_ceiling :
  (forall a t : Q, (a <= 60)%Q -> grade_of a t = D_grade)
  /\ (forall a t : Q, (60 < a)%Q -> (1 <= grade_rank (grade_of a t))%nat)
  /\ (forall a t : Q, (550 <= t)%Q -> (grade_rank (grade_of a t) <= 1)%nat)
  /\ grade zeroStats = D_grade.
Proof.
  split; [| split; [| split; [| reflexivity]]];
    intros a t H; unfold grade_of; grade_cases; (reflexivity || lia).
Qed.

Lemma or_one_pos (n : nat) : 1 <= or_one n.
Proof. unfold or_one. destruct (Nat.eqb_spec n 0); lia. Qed.

Lemma squares_sum_nonneg (avg : Q) (l : list Z) :
  forall acc : Q,
    (0 <= acc)%Q ->
    (0 <= fold_left (fun acc val => acc + (inject_Z val - avg) ^ 2) l acc)%Q.
Proof.
  induction l as [| x l IH]; intros acc Hacc; cbn [fold_left].
  - exact Hacc.
  - apply IH. pose proof (Qsqr_nonneg (inject_Z x - avg)) as Hsq.
    set (q := ((inject_Z x - avg) ^ 2)%Q) in *. lra.
Qed.

(** The guarded length is a divisor [js_div] accepts. *)
Lemma js_div_or_one (a : Q) (n : nat) :
  js_div a (inject_Z (or_one n)) = Some (a / inject_Z (or_one n))%Q.
Proof.
  unfold js_div. destruct (Qeq_bool (inject_Z (or_one n)) 0) eqn:E;
    [| reflexivity].
  apply Qeq_bool_iff in E. unfold Qeq in E. cbn in E.
  pose proof (or_one_pos n). lia.
Qed.

(** Without the guard the empty history would be divided by zero. *)
Lemma js_div_zero (a : Q) : js_div a (inject_Z (Z.of_nat 0)) = None.
Proof. reflexivity. Qed.

(** X12.  The report divides by [length || 1], never by zero: the
    variance of the reaction times and the average distance are numbers
    for every statistics, where a division by the bare length would not be
    for an empty history.  With no hit both are 0; the variance is never
    negative, and in a reachable state with exactly one hit it is 0. *)
Theorem report_variance_guarded :
  (forall st, exists v, variance st = Some v /\ (0 <= v)%Q)
  /\ (forall st, exists d, avgDistance st = Some d)
  /\ (forall st, hitHistory st = [] ->
                 variance st = Some 0%Q /\ avgDistance st = Some 0%Q)
  /\ (forall st, hitHistory st = [] ->
                 js_div
                   (fold_left (fun acc h => acc + distance h)%Q
                      (hitHistory st) 0%Q)
                   (inject_Z (Z.of_nat (List.length (hitHistory st))))
                 = None)
  /\ (forall s h, reachable s -> hitHistory (stats s) = [h] ->
                  exists v, variance (stats s) = Some v /\ (v == 0)%Q).
Proof.
  split; [| split; [| split; [| split]]].
  - intros st. unfold variance. rewrite js_div_or_one.
    eexists. split; [reflexivity |].
    apply Qle_shift_div_l.
    + change 0%Q with (inject_Z 0). rewrite <- Zlt_Qlt.
      pose proof (or_one_pos (List.length (reactionTimes st))). lia.
    + rewrite Qmult_0_l. apply squares_sum_nonneg. apply Qle_refl.
  - intros st. unfold avgDistance. rewrite js_div_or_one. eexists.
    reflexivity.
  - intros st E. unfold variance, avgDistance, reactionTimes. rewrite E.
    split; reflexivity.
  - intros st E. rewrite E. reflexivity.
  - intros s h Hr E. destruct (reachable_average_ok s Hr) as [_ Hav].
    unfold variance. rewrite js_div_or_one. eexists. split; [reflexivity |].
    unfold reactionTimes. rewrite Hav by (rewrite E; discriminate).
    rewrite E. unfold mean, Zsum. cbn [map fold_right fold_left List.length].
    rewrite Z.add_0_r. unfold or_one. cbn [Nat.eqb Z.of_nat Pos.of_succ_nat].
    change (inject_Z 1) with 1%Q.
    change ((inject_Z (reactionTime h) - inject_Z (reactionTime h) / 1) ^ 2)%Q
      with ((inject_Z (reactionTime h) - inject_Z (reactionTime h) / 1)
            * (inject_Z (reactionTime h) - inject_Z (reactionTime h) / 1))%Q.
    field.
Qed.

Lemma fold_max_spec (rs : list Z) :
  forall r : Z,
    r <= fold_left Z.max rs r
    /\ (forall x, In x rs -> x <= fold_left Z.max rs r)
    /\ In (fold_left Z.max rs r) (r :: rs).
Proof.
  induction rs as [| x rs IH]; intros r; cbn [fold_left].
  - split; [lia | split; [intros ? [] | now left]].
  - destruct (IH (Z.max r x)) as [H1 [H2 H3]].
    split; [lia | split].
    + intros y [<- | Hy]; [lia | now apply H2].
    + destruct H3 as [H3 | H3]; [| right; now right].
      rewrite <- H3. destruct (Z.max_spec r x) as [[_ ->] | [_ ->]];
        [right; now left | now left].
Qed.

Lemma chartPoint_inside (n i : nat) (M : Z) (h : HitData) :
  (i < n)%nat -> (2 <= n)%nat -> 0 < reactionTime h <= M ->
  let '(x, y) := chartPoint n (inject_Z M * 1.1) h i in
  (chart_padding <= x /\ x <= chart_width - chart_padding)%Q
  /\ (chart_padding <= y /\ y < chart_height - chart_padding)%Q.
Proof.
  intros Hi Hn [Hr HM]. unfold chartPoint.
  unfold chart_padding, chart_width, chart_height.
  assert (Hd : (0 < inject_Z (Z.of_nat n - 1))%Q)
    by (change 0%Q with (inject_Z 0); rewrite <- Zlt_Qlt; lia).
  assert (Hq0 : (0 <= inject_Z (Z.of_nat i) / inject_Z (Z.of_nat n - 1))%Q).
  { apply Qle_shift_div_l; [exact Hd |]. rewrite Qmult_0_l.
    change 0%Q with (inject_Z 0). rewrite <- Zle_Qle. lia. }
  assert (Hq1 : (inject_Z (Z.of_nat i) / inject_Z (Z.of_nat n - 1) <= 1)%Q).
  { apply Qle_shift_div_r; [exact Hd |]. rewrite Qmult_1_l.
    rewrite <- Zle_Qle. lia. }
  assert (HM0 : (0 < inject_Z M)%Q)
    by (change 0%Q with (inject_Z 0); rewrite <- Zlt_Qlt; lia).
  assert (Hr0 : (0 < inject_Z (reactionTime h))%Q)
    by (change 0%Q with (inject_Z 0); rewrite <- Zlt_Qlt; lia).
  assert (HrM : (inject_Z (reactionTime h) <= inject_Z M)%Q)
    by (rewrite <- Zle_Qle; lia).
  assert (Hm : (0 < inject_Z M * 1.1)%Q) by lra.
  assert (Hp0 : (0 < inject_Z (reactionTime h) / (inject_Z M * 1.1))%Q).
  { apply Qlt_shift_div_l; [exact Hm |]. now rewrite Qmult_0_l. }
  assert (Hp1 : (inject_Z (reactionTime h) / (inject_Z M * 1.1)
                 <= 10 # 11)%Q).
  { apply Qle_shift_div_r; [exact Hm |]. lra. }
  set (q := (inject_Z (Z.of_nat i) / inject_Z (Z.of_nat n - 1))%Q) in *.
  set (p := (inject_Z (reactionTime h) / (inject_Z M * 1.1))%Q) in *.
  repeat split; lra.
Qed.

(** X13.  The chart of the report is drawn for two hits or more only.
    When every reaction time is positive it has one point per hit, and
    every point is inside the padded drawing area: x between 5 and 295 and
    y from 5 to below 75, in the 300 by 80 view box. *)
Theorem chart_points_inside :
  (forall st, (List.length (hitHistory st) < 2)%nat -> renderChart st = None)
  /\ (forall st,
         (2 <= List.length (hitHistory st))%nat ->
         (forall h, In h (hitHistory st) -> 0 < reactionTime h) ->
         exists pts,
           renderChart st = Some pts
           /\ List.length pts = List.length (hitHistory st)
           /\ forall x y, In (x, y) pts ->
                          (5 <= x /\ x <= 295)%Q /\ (5 <= y /\ y < 75)%Q).
Proof.
  split.
  - intros st Hlt. unfold renderChart.
    destruct (Nat.ltb_spec (List.length (hitHistory st)) 2);
      [reflexivity | lia].
  - intros st Hge Hpos. unfold renderChart.
    destruct (Nat.ltb_spec (List.length (hitHistory st)) 2); [lia |].
    destruct (hitHistory st) as [| h0 hs] eqn:E; [cbn in Hge; lia |].
    cbn [map]. eexists. split; [reflexivity | split].
    + rewrite length_map, length_combine, length_seq. apply Nat.min_id.
    + intros x y Hin. apply in_map_iff in Hin.
      destruct Hin as [[i h] [Hxy Hih]].
      pose proof (in_combine_l _ _ _ _ Hih) as Hi.
      pose proof (in_combine_r _ _ _ _ Hih) as Hh.
      apply in_seq in Hi.
      destruct (fold_max_spec (map reactionTime hs) (reactionTime h0))
        as [H0 [Hrest _]].
      assert (Hle : reactionTime h
                    <= fold_left Z.max (map reactionTime hs) (reactionTime h0)).
      { destruct Hh as [<- | Hh]; [exact H0 |].
        apply Hrest. now apply in_map. }
      pose proof (chartPoint_inside (List.length (h0 :: hs)) i _ h
                    ltac:(lia) ltac:(lia) (conj (Hpos h Hh) Hle)) as Hpt.
      rewrite Hxy in Hpt. unfold chart_padding, chart_width, chart_height in Hpt.
      destruct Hpt as [[Hx0 Hx1] [Hy0 Hy1]].
      repeat split; lra.
Qed.

(* ================================================================== *)
(** ** The clock of the HUD *)

Lemma seconds_shown_below_60 (n : nat) : (n < 60)%nat -> secondsShown n = true.
Proof.
  intros Hn.
  assert (H : forallb secondsShown (seq 0 60) = true) by (vm_compute; reflexivity).
  rewrite forallb_forall in H. apply H. apply in_seq. lia.
Qed.

(** X14.  For a countdown that is not negative, the minutes and seconds
    of the HUD add up to [timeLeft], the seconds are below 60 and are
    written as exactly two decimal digits that read back as the seconds,
    after the minutes and a colon; in a reachable state the minutes are 0
    or 1, and the countdown is shown as urgent exactly from 10 seconds
    down. *)
Theorem hud_clock_format :
  (forall left : Z,
      0 <= left ->
      clockMinutes left * 60 + clockSeconds left = left
      /\ 0 <= clockSeconds left < 60
      /\ exists ss : string,
           hudClock left
           = (Number_toString (clockMinutes left) ++ ":" ++ ss)%string
           /\ String.length ss = 2%nat
           /\ twoDigitsOf ss = Some (clockSeconds left))
  /\ (forall s, reachable s ->
                0 <= clockMinutes (timeLeft s) <= 1
                /\ (hudUrgent (timeLeft s) = true <-> timeLeft s <= 10)).
Proof.
  split.
  - intros left Hl. unfold clockMinutes, clockSeconds.
    rewrite Z.rem_mod_nonneg by lia.
    pose proof (Z.mod_pos_bound left 60 ltac:(lia)) as Hm.
    pose proof (Z.div_mod left 60 ltac:(lia)) as Hdm.
    split; [lia | split; [lia |]].
    exists (padStart 2 "0" (Number_toString (left mod 60))).
    split; [unfold hudClock, clockMinutes, clockSeconds;
            now rewrite Z.rem_mod_nonneg by lia |].
    pose proof (seconds_shown_below_60 (Z.to_nat (left mod 60)) ltac:(lia))
      as Hs.
    unfold secondsShown in Hs. rewrite Z2Nat.id in Hs by lia.
    destruct (twoDigitsOf (padStart 2 "0" (Number_toString (left mod 60))))
      as [v |] eqn:Ev; [| discriminate Hs].
    apply Z.eqb_eq in Hs. subst v.
    split; [| reflexivity].
    unfold twoDigitsOf in Ev.
    destruct (padStart 2 "0" (Number_toString (left mod 60)))
      as [| a [| b [| c r]]]; try discriminate Ev. reflexivity.
  - intros s Hr. destruct (reachable_clock_ok s Hr) as [_ [Hb _]].
    unfold clockMinutes, hudUrgent. split.
    + split; [apply Z.div_pos; lia |].
      apply Z.lt_succ_r. apply Z.div_lt_upper_bound; lia.
    + apply Z.leb_le.
Qed.

(* ================================================================== *)
(** ** The weapon's recoil *)

Lemma gunFrame_recoil (sin cos : Q -> Q) (isShooting isMoving : bool)
    (delta : Q) (g : GunState) :
  recoilAnim (fst (gunFrame sin cos isShooting isMoving delta g))
  = Qmax 0 ((if isShooting then 0.2%Q else recoilAnim g) - delta * 2).
Proof. unfold gunFrame. destruct isMoving; reflexivity. Qed.

Lemma gunFrame_pose (sin cos : Q -> Q) (isShooting isMoving : bool)
    (delta : Q) (g : GunState) :
  let r := recoilAnim (fst (gunFrame sin cos isShooting isMoving delta g)) in
  pose_z (snd (gunFrame sin cos isShooting isMoving delta g)) = (-0.3 + r)%Q
  /\ pose_rotation_x (snd (gunFrame sin cos isShooting isMoving delta g))
     = (r * 0.5)%Q.
Proof. unfold gunFrame. destruct isMoving; split; reflexivity. Qed.

Lemma Qmax0_bounds (x : Q) :
  (x <= 0.2)%Q -> (0 <= Qmax 0 x /\ Qmax 0 x <= 0.2)%Q.
Proof.
  intros Hx. split; [apply Q.le_max_l |].
  apply Q.max_lub; [lra | exact Hx].
Qed.

(** X15.  While frames have a length that is not negative, the recoil of
    the weapon stays between 0 and 0.2 from the moment [Gun] is mounted,
    whatever is shot and however the player moves; so every frame tilts
    the weapon by between 0 and 0.1 and never puts it in front of its rest
    position, z = -0.3. *)
Theorem gun_recoil_bounded :
  forall (sin cos : Q -> Q) (frames : list (bool * bool * Q)),
    Forall (fun f => (0 <= snd f)%Q) frames ->
    let g := gunFrames sin cos frames gunInitial in
    (0 <= recoilAnim g /\ recoilAnim g <= 0.2)%Q
    /\ forall isShooting isMoving delta,
         (0 <= delta)%Q ->
         let p := snd (gunFrame sin cos isShooting isMoving delta g) in
         (-0.3 <= pose_z p)%Q
         /\ (0 <= pose_rotation_x p /\ pose_rotation_x p <= 0.1)%Q.
Proof.
  intros sin cos frames Hf.
  assert (Hstep : forall sh mv delta g,
             (0 <= delta)%Q -> (0 <= recoilAnim g /\ recoilAnim g <= 0.2)%Q ->
             (0 <= recoilAnim (fst (gunFrame sin cos sh mv delta g))
              /\ recoilAnim (fst (gunFrame sin cos sh mv delta g)) <= 0.2)%Q).
  { intros sh mv delta g Hd [H0 H1]. rewrite gunFrame_recoil.
    apply Qmax0_bounds. destruct sh; lra. }
  assert (Hinv : forall g0,
             (0 <= recoilAnim g0 /\ recoilAnim g0 <= 0.2)%Q ->
             (0 <= recoilAnim (gunFrames sin cos frames g0)
              /\ recoilAnim (gunFrames sin cos frames g0) <= 0.2)%Q).
  { induction Hf as [| [[sh mv] delta] frames Hd Hf IH]; intros g0 Hg0.
    - exact Hg0.
    - cbn [gunFrames fold_left]. apply IH. apply Hstep; [exact Hd | exact Hg0]. }
  intros g.
  assert (Hg : (0 <= recoilAnim g /\ recoilAnim g <= 0.2)%Q)
    by (apply Hinv; cbn; split; lra).
  split; [exact Hg |].
  intros sh mv delta Hd p. subst p.
  destruct (gunFrame_pose sin cos sh mv delta g) as [-> ->].
  destruct (Hstep sh mv delta g Hd Hg) as [H0 H1].
  repeat split; lra.
Qed.

Lemma gunFrame_rest (sin cos : Q -> Q) (isMoving : bool) (delta : Q)
    (g : GunState) :
  (0 <= delta)%Q -> (0 <= recoilAnim g)%Q ->
  let r := recoilAnim (fst (gunFrame sin cos false isMoving delta g)) in
  (0 <= r /\ r <= recoilAnim g)%Q
  /\ ((recoilAnim g <= delta * 2)%Q -> (r == 0)%Q).
Proof.
  intros Hd Hg r. subst r. rewrite gunFrame_recoil. split.
  - split; [apply Q.le_max_l | apply Q.max_lub; lra].
  - intros Hle. apply Q.max_l. lra.
Qed.

(** X16.  Without a shot the recoil never grows and never falls below 0,
    over any frames of lengths that are not negative; and one frame at
    least half as long as the recoil at the start is large, wherever it
    comes among them, leaves the recoil at 0 at the end. *)
Theorem gun_recoil_falls_at_rest :
  forall (sin cos : Q -> Q) (isMoving : bool) (deltas : list Q)
         (g : GunState),
    Forall (fun delta => (0 <= delta)%Q) deltas ->
    (0 <= recoilAnim g)%Q ->
    let r := recoilAnim (gunRest sin cos isMoving deltas g) in
    (0 <= r /\ r <= recoilAnim g)%Q
    /\ forall delta, In delta deltas -> (recoilAnim g <= delta * 2)%Q ->
                     (r == 0)%Q.
Proof.
  intros sin cos mv deltas g Hd. revert g.
  induction Hd as [| delta0 deltas Hdelta0 Hd IH]; intros g Hg r; subst r.
  - cbn [gunRest fold_left]. split; [split; [exact Hg | apply Qle_refl] |].
    intros delta [].
  - set (g1 := fst (gunFrame sin cos false mv delta0 g)).
    change (gunRest sin cos mv (delta0 :: deltas) g)
      with (gunRest sin cos mv deltas g1).
    destruct (gunFrame_rest sin cos mv delta0 g Hdelta0 Hg) as [[H0 H1] Hz].
    fold g1 in H0, H1, Hz.
    destruct (IH g1 H0) as [[F0 F1] Fz].
    split; [split; [exact F0 | lra] |].
    intros delta [<- | Hin] Hle.
    + specialize (Hz Hle). apply Qle_antisym; [lra | exact F0].
    + apply (Fz delta Hin). lra.
Qed.

(* ================================================================== *)
(** ** The movement keys *)

Lemma getFlag_setFlag (f f' : MoveFlag) (b : bool) (k : MoveKeys) :
  getFlag f (setFlag f' b k)
  = match f', f with
    | Forward, Forward | Backward, Backward
    | Leftward, Leftward | Rightward, Rightward => b
    | _, _ => getFlag f k
    end.
Proof. destruct f, f'; reflexivity. Qed.

(** X17.  A movement flag only remembers the last event on its two keys:
    after any sequence of key events the flag is on exactly if the last
    event on the arrow key or the letter key of its direction was a
    [keydown], and it is unchanged if there was none.  So releasing one
    of the two keys of a direction stops the movement although the other
    is still held, and a key with another code changes nothing. *)
Theorem movement_flag_last_event :
  (forall (f : MoveFlag) (es : list KeyEvent) (k : MoveKeys),
      getFlag f (onKeys es k)
      = match lastOn f es with
        | Some down => down
        | None => getFlag f k
        end)
  /\ (forall k,
         moveForward
           (onKeys [(true, "KeyW"); (true, "ArrowUp"); (false, "ArrowUp")]%string
              k)
         = false)
  /\ (forall down code k, flagOfCode code = None -> onKey k (down, code) = k).
Proof.
  split; [| split].
  - intros f es. induction es as [| [down code] es IH]; intros k.
    + reflexivity.
    + cbn [onKeys fold_left lastOn]. fold (onKeys es (onKey k (down, code))).
      rewrite IH. destruct (lastOn f es) as [b |]; [reflexivity |].
      unfold onKey, onKeyDown, onKeyUp.
      destruct (flagOfCode code) as [f' |]; [| now destruct down].
      destruct down; rewrite getFlag_setFlag; destruct f', f; reflexivity.
  - intros k. reflexivity.
  - intros down code k E. unfold onKey, onKeyDown, onKeyUp. rewrite E.
    now destruct down.
Qed.

(* ================================================================== *)
(** ** Further properties of the countdown and of the live targets *)

Lemma reachable_finished_zero (s : AppState) :
  reachable s -> gameState s = FINISHED -> timeLeft s = 0.
Proof.
  intros Hr. induction Hr as [| s e Hr IH Hv]; [discriminate |].
  step_cases s e G;
    try match goal with
        | |- context [timeLeft s <=? 1] => destruct (timeLeft s <=? 1)
        end;
    try (destruct (handleShoot_frame raycaster now d s) as [-> [_ ->]]);
    cbn [setGameState setTimeLeft setSettings startGame gameState timeLeft];
    rewrite ?G; try discriminate; try (intros _; reflexivity);
    try (intros _; now apply IH).
Qed.

(** X18.  In a reachable state the report is on screen only with the
    countdown at 0, and no event but a start button raises the countdown:
    an event leaves it as it is or takes 1 from it. *)
Theorem countdown_only_falls :
  forall s : AppState,
    reachable s ->
    (gameState s = FINISHED -> timeLeft s = 0)
    /\ forall e, (forall ds, e <> ClickStart ds) ->
                 timeLeft (step s e) = timeLeft s
                 \/ timeLeft (step s e) = timeLeft s - 1.
Proof.
  intros s Hr. split; [now apply reachable_finished_zero |].
  intros e Hns. destruct (reachable_clock_ok s Hr) as [_ [Hb Hp]].
  step_cases s e G;
    try (destruct (handleShoot_frame raycaster now d s) as [_ [_ ->]]);
    try (left; reflexivity);
    try (now destruct (Hns ds)).
  assert (H1 : 1 <= timeLeft s) by (apply Hp; auto).
  destruct (Z.leb_spec (timeLeft s) 1); cbn [setTimeLeft timeLeft];
    right; lia.
Qed.

(** X19.  Live targets do not expire: the target list changes only by a
    mouse button while [PLAYING] whose shot counts as a hit, which gives
    the respawn update for the target found, or by a start button outside
    [PLAYING]; ticks, pauses, misses and settings leave it as it is. *)
Theorem targets_change_only_by_hit_or_start :
  forall (s : AppState) (e : Event),
    targets (step s e) = targets s
    \/ (gameState s = PLAYING
        /\ exists ray now d t dist,
             e = MouseDown ray now d
             /\ resolve ray (targets s) (targetSize (settings s))
                = Some (t, dist)
             /\ truthy (Some (id t)) = true
             /\ targets (step s e) = respawn (id t) d (targets s))
    \/ (gameState s <> PLAYING
        /\ exists ds,
             e = ClickStart ds
             /\ targets (step s e)
                = map (fun i => generateTarget [] (ds i))
                    (seq 0 (targetCount (settings s)))).
Proof.
  intros s e. step_cases s e G;
    try match goal with
        | |- context [timeLeft s <=? 1] => destruct (timeLeft s <=? 1)
        end;
    try (left; reflexivity);
    try (right; right; split; [discriminate | eexists; split; reflexivity]).
  rewrite handleShoot_targets.
  destruct (resolve raycaster (targets s) (targetSize (settings s)))
    as [[t dist] |] eqn:Er; [| now left].
  cbn [hitId]. destruct (truthy (Some (id t))) eqn:Et; [| now left].
  right. left. split; [reflexivity |].
  exists raycaster, now, d, t, dist. repeat split; assumption.
Qed.

End Game.

(* ================================================================== *)
(** ** The model on concrete inputs *)

Lemma draws_distinct_valid : forall i, valid_draw (Sample.draws_distinct i).
Proof.
  intros [| [| i]]; unfold valid_draw; cbn; repeat split; lra.
Qed.

Lemma draws_clash_valid : forall i, valid_draw (Sample.draws_clash i).
Proof.
  intros [| [| i]]; unfold valid_draw; cbn; repeat split; lra.
Qed.

Lemma draw_new_valid : valid_draw Sample.draw_new.
Proof. unfold valid_draw; cbn; repeat split; lra. Qed.

(** The shot straight ahead finds the target straight ahead, 17 away. *)
Example resolve_ahead :
  resolve ThreeQ.intersectsSphere ThreeQ.distanceTo Sample.ray_ahead
    (targets Sample.playing) (targetSize (settings Sample.playing))
  = Some (Sample.target_ahead, 17.000%Q).
Proof. vm_compute. reflexivity. Qed.

(** A shot that points away from every target finds nothing. *)
Example resolve_up :
  resolve ThreeQ.intersectsSphere ThreeQ.distanceTo Sample.ray_up
    (targets Sample.playing) (targetSize (settings Sample.playing))
  = None.
Proof. vm_compute. reflexivity. Qed.

(** An intersected target whose id is the empty string is found by the
    search, but [isHit] is false: the shot is scored as a miss and the
    target stays. *)
Example empty_id_scored_as_miss :
  let s := setTargets [generateTarget [] Sample.draw_empty_id] Sample.playing in
  let h := resolve ThreeQ.intersectsSphere ThreeQ.distanceTo Sample.ray_ahead
             (targets s) (targetSize (settings s)) in
  let s' := handleShoot ThreeQ.intersectsSphere ThreeQ.distanceTo
              Sample.ray_ahead 1200 Sample.draw_new s in
  hitId h = Some ""%string /\ truthy (hitId h) = false
  /\ shotsFired (stats s') = 1 /\ shotsHit (stats s') = 0
  /\ targets s' = targets s.
Proof. vm_compute. repeat split. Qed.

(** Ten shots with seven hits. *)
Example ten_shots_scenario :
  List.length Sample.ten_shots = 10%nat
  /\ hitReactions Sample.ten_shots = [200; 250; 300; 150; 400; 350; 280]
  /\ score (scoreShots Sample.ten_shots zeroStats) = 700
  /\ Qred (accuracy (scoreShots Sample.ten_shots zeroStats)) = 70%Q
  /\ Qred (avgReactionTime (scoreShots Sample.ten_shots zeroStats))
     = (1930 # 7)%Q.
Proof. vm_compute. repeat split. Qed.

(** A session in which every id drawn is new. *)
Lemma fresh_events_reachable :
  reachable_fresh ThreeQ.intersectsSphere ThreeQ.distanceTo
    (run ThreeQ.intersectsSphere ThreeQ.distanceTo initialState
       Sample.fresh_events).
Proof.
  unfold Sample.fresh_events. cbn [run fold_left].
  repeat (apply reachable_fresh_step; [| try exact I | try exact I]).
  - apply reachable_fresh_init.
  - exact draws_distinct_valid.
  - vm_compute. repeat constructor; intros H;
      repeat (destruct H as [H | H]; [discriminate H |]); exact H.
  - exact draw_new_valid.
  - vm_compute. intros H;
      repeat (destruct H as [H | H]; [discriminate H |]); exact H.
Qed.

Example fresh_events_end :
  let s := run ThreeQ.intersectsSphere ThreeQ.distanceTo initialState
             Sample.fresh_events in
  gameState s = PLAYING
  /\ map id (targets s) = ["7"; "r4pz0q1xk"; "9"]%string
  /\ timeLeft s = 59
  /\ shotsFired (stats s) = 1 /\ shotsHit (stats s) = 1.
Proof. vm_compute. repeat split. Qed.

(* ================================================================== *)
(** ** Where the specification and the program differ *)

(** C1.  Two of the three targets made by [startGame] drew the same id
    "i"; a hit on one of them removes both and adds one, and the game is
    [PLAYING] with two live targets and [targetCount = 3]. *)
Lemma live_target_count_clash :
  let s := run ThreeQ.intersectsSphere ThreeQ.distanceTo initialState
             Sample.clash_events in
  reachable ThreeQ.intersectsSphere ThreeQ.distanceTo s
  /\ gameState s = PLAYING
  /\ targetCount (settings s) = 3%nat
  /\ List.length (targets s) = 2%nat
  /\ List.length (targets s) <> targetCount (settings s).
Proof.
  split; [| vm_compute; repeat split; discriminate].
  apply reachable_run; [apply reachable_init |].
  apply Forall_cons; [exact draws_clash_valid |].
  apply Forall_cons; [exact draw_new_valid | apply Forall_nil].
Qed.

(** C2.  The list holds one target, with id "i"; the update for the id
    "k3j9x0q2m", which no element has, returns a list of two. *)
Lemma respawn_stale_id_grows :
  let l := [Sample.target_ahead] in
  let l' := respawn "k3j9x0q2m" Sample.draw_new l in
  ~ In "k3j9x0q2m"%string (map id l)
  /\ l' <> l
  /\ List.length l = 1%nat /\ List.length l' = 2%nat.
Proof.
  cbv zeta. split; [| split; [| split; reflexivity]].
  - cbn. intros [H | []]. discriminate H.
  - intros H. apply (f_equal (@List.length TargetData)) in H.
    vm_compute in H. discriminate H.
Qed.

Lemma empty_id_events_reachable :
  reachable ThreeQ.intersectsSphere ThreeQ.distanceTo
    (run ThreeQ.intersectsSphere ThreeQ.distanceTo initialState
       SampleExtra.empty_id_events).
Proof.
  apply reachable_run; [apply reachable_init |].
  apply Forall_cons; [cbn; lia |].
  apply Forall_cons; [| apply Forall_nil].
  intros i. unfold valid_draw. cbn. repeat split; lra.
Qed.

(** C4.  A shot that strikes a target is not always scored as a hit.  The
    session has one live target, whose id is the empty string because its
    third random number was 0.  The shot straight ahead intersects its
    sphere and the search returns it, 17 away; but [!!hitId] is false for
    the empty string, and the shot is scored as a miss: [shotsFired] is 1
    while [shotsHit] and [score] stay 0 and no record is appended, and the
    target stays where it is. *)
Theorem shot_on_empty_id_is_missed :
  let s := run ThreeQ.intersectsSphere ThreeQ.distanceTo initialState
             SampleExtra.empty_id_events in
  let t := generateTarget [] Sample.draw_empty_id in
  let h := resolve ThreeQ.intersectsSphere ThreeQ.distanceTo Sample.ray_ahead
             (targets s) (targetSize (settings s)) in
  let s' := step ThreeQ.intersectsSphere ThreeQ.distanceTo s
              (MouseDown Sample.ray_ahead 1200 Sample.draw_new) in
  reachable ThreeQ.intersectsSphere ThreeQ.distanceTo s
  /\ gameState s = PLAYING
  /\ targets s = [t] /\ id t = ""%string
  /\ ThreeQ.intersectsSphere Sample.ray_ahead
       (hitbox (targetSize (settings s)) t) = true
  /\ h = Some (t, 17.000%Q)
  /\ truthy (hitId h) = false
  /\ shotsFired (stats s') = shotsFired (stats s) + 1
  /\ shotsHit (stats s') = shotsHit (stats s)
  /\ score (stats s') = score (stats s)
  /\ hitHistory (stats s') = hitHistory (stats s)
  /\ shotsHit (stats s') = 0 /\ score (stats s') = 0
  /\ hitHistory (stats s') = []
  /\ targets s' = [t].
Proof.
  cbv zeta. split; [exact empty_id_events_reachable |].
  vm_compute. repeat split.
Qed.

(* ================================================================== *)
(** ** The inputs the hypotheses are met at *)

(** C1 at the end of the session [Sample.fresh_events]. *)
Lemma live_target_count_fresh_ids_witness :
  let s := run ThreeQ.intersectsSphere ThreeQ.distanceTo initialState
             Sample.fresh_events in
  reachable_fresh ThreeQ.intersectsSphere ThreeQ.distanceTo s
  /\ gameState s = PLAYING
  /\ List.length (targets s) = targetCount (settings s).
Proof.
  cbv zeta.
  assert (Hg : gameState
                 (run ThreeQ.intersectsSphere ThreeQ.distanceTo initialState
                    Sample.fresh_events) = PLAYING)
    by (vm_compute; reflexivity).
  split; [exact fresh_events_reachable | split; [exact Hg |]].
  exact (proj2 (proj2 (live_target_count_fresh_ids
                         ThreeQ.intersectsSphere ThreeQ.distanceTo))
           _ fresh_events_reachable Hg).
Defined.

(** C2 at a list of one target and an id it does not have. *)
Lemma respawn_stale_id_appends_witness :
  let l := [Sample.target_ahead] in
  ~ In "k3j9x0q2m"%string (map id l)
  /\ respawn "k3j9x0q2m" Sample.draw_new l
     = l ++ [generateTarget l Sample.draw_new]
  /\ List.length (respawn "k3j9x0q2m" Sample.draw_new l) = 2%nat.
Proof.
  cbv zeta.
  assert (Hn : ~ In "k3j9x0q2m"%string (map id [Sample.target_ahead]))
    by (cbn; intros [H | []]; discriminate H).
  split; [exact Hn |].
  exact (proj1 (respawn_stale_id_appends
                  ThreeQ.intersectsSphere ThreeQ.distanceTo)
           "k3j9x0q2m"%string Sample.draw_new [Sample.target_ahead] Hn).
Defined.

(** C3 at the shot straight ahead in [Sample.playing]. *)
Lemma hit_resolution_witness :
  let ray := Sample.ray_ahead in
  let l := targets Sample.playing in
  let size := targetSize (settings Sample.playing) in
  (exists t, In t l /\ ThreeQ.intersectsSphere ray (hitbox size t) = true)
  /\ exists t d,
       resolve ThreeQ.intersectsSphere ThreeQ.distanceTo ray l size
       = Some (t, d)
       /\ In t l
       /\ d = ThreeQ.distanceTo (position t) (origin ray)
       /\ forall t', In t' l ->
                     ThreeQ.intersectsSphere ray (hitbox size t') = true ->
                     (d <= ThreeQ.distanceTo (position t') (origin ray))%Q.
Proof.
  intros ray l size.
  assert (Hex : exists t, In t l
                          /\ ThreeQ.intersectsSphere ray (hitbox size t) = true)
    by (exists Sample.target_ahead; split; [left |]; reflexivity).
  split; [exact Hex |].
  destruct (proj1 (proj2 (proj2 (hit_resolution
                                   ThreeQ.intersectsSphere ThreeQ.distanceTo
                                   ray l size))) Hex)
    as [t [d [Hr [_ [_ [_ [Hin [_ [Hd Hmin]]]]]]]]].
  exists t, d. split; [exact Hr | split; [exact Hin | split; assumption]].
Defined.

(** The statistics update at the shot straight ahead in [Sample.playing],
    where the flag [isHit] is set. *)
Lemma shot_updates_stats_witness :
  let s := Sample.playing in
  let h := resolve ThreeQ.intersectsSphere ThreeQ.distanceTo Sample.ray_ahead
             (targets s) (targetSize (settings s)) in
  let st' := stats (handleShoot ThreeQ.intersectsSphere ThreeQ.distanceTo
                      Sample.ray_ahead 1200 Sample.draw_new s) in
  truthy (hitId h) = true
  /\ exists t dist,
       h = Some (t, dist) /\ In t (targets s)
       /\ shotsHit st' = shotsHit (stats s) + 1
       /\ score st' = score (stats s) + 100
       /\ hitHistory st'
          = hitHistory (stats s) ++
              [{| time := duration (settings s) - timeLeft s;
                  reactionTime := 1200 - spawnTime t;
                  distance := dist |}].
Proof.
  intros s h st'.
  assert (Hh : truthy (hitId h) = true) by (vm_compute; reflexivity).
  split; [exact Hh |].
  exact (proj1 (proj2 (shot_updates_stats
                         ThreeQ.intersectsSphere ThreeQ.distanceTo
                         Sample.ray_ahead 1200 Sample.draw_new s)) Hh).
Defined.

(** C5 at the end of the session [Sample.fresh_events]. *)
Lemma accuracy_formula_zero_guard_witness :
  let s := run ThreeQ.intersectsSphere ThreeQ.distanceTo initialState
             Sample.fresh_events in
  reachable ThreeQ.intersectsSphere ThreeQ.distanceTo s
  /\ 0 < shotsFired (stats s)
  /\ (accuracy (stats s)
      == inject_Z (shotsHit (stats s)) / inject_Z (shotsFired (stats s))
         * 100)%Q.
Proof.
  intros s.
  assert (Hr : reachable ThreeQ.intersectsSphere ThreeQ.distanceTo s)
    by (apply reachable_fresh_reachable; exact fresh_events_reachable).
  assert (Hf : 0 < shotsFired (stats s)) by (vm_compute; reflexivity).
  split; [exact Hr | split; [exact Hf |]].
  exact (proj1 (proj2 (proj2 (proj2 (accuracy_formula_zero_guard
                                       ThreeQ.intersectsSphere
                                       ThreeQ.distanceTo)) s Hr)) Hf).
Defined.

(** C6 at the ten shots of [Sample.ten_shots]. *)
Lemma average_reaction_is_mean_witness :
  let st := scoreShots Sample.ten_shots zeroStats in
  List.length Sample.ten_shots = 10%nat
  /\ hitReactions Sample.ten_shots = [200; 250; 300; 150; 400; 350; 280]
  /\ shotsFired st = 10 /\ shotsHit st = 7
  /\ (accuracy st == 70)%Q
  /\ (avgReactionTime st == 1930 # 7)%Q
  /\ (275.705 <= avgReactionTime st /\ avgReactionTime st < 275.715)%Q.
Proof.
  intros st.
  assert (Hl : List.length Sample.ten_shots = 10%nat) by reflexivity.
  assert (Hre : hitReactions Sample.ten_shots
                = [200; 250; 300; 150; 400; 350; 280]) by reflexivity.
  split; [exact Hl | split; [exact Hre |]].
  exact (proj2 (proj2 (proj2 (average_reaction_is_mean
                                ThreeQ.intersectsSphere ThreeQ.distanceTo)))
           Sample.ten_shots Hl Hre).
Defined.

(** C7 at accuracy 92 and average reaction time 400. *)
Lemma grade_priority_rules_witness :
  ~ (90 < 92 /\ 400 < 350)%Q /\ (85 < 92 /\ 400 < 450)%Q
  /\ grade_of 92 400 = A_grade.
Proof.
  assert (Hs : ~ (90 < 92 /\ 400 < 350)%Q)
    by (intros [_ H]; discriminate H).
  assert (Ha : (85 < 92 /\ 400 < 450)%Q) by (split; reflexivity).
  split; [exact Hs | split; [exact Ha |]].
  exact (proj1 (proj2 (proj1 grade_priority_rules 92%Q 400%Q)) Hs Ha).
Defined.

(** C8 at the first tick of [Sample.playing] and at a session of five seconds. *)
Lemma countdown_clock_witness :
  (gameState Sample.playing = PLAYING /\ 1 <= timeLeft Sample.playing
   /\ timeLeft (tick Sample.playing) = timeLeft Sample.playing - 1)
  /\ (duration (settings Sample.five_seconds) = 5
      /\ let s0 := startGame Sample.draws_distinct Sample.five_seconds in
         gameState s0 = PLAYING /\ timeLeft s0 = 5
         /\ gameState (ticks 4 s0) = PLAYING /\ timeLeft (ticks 4 s0) = 1
         /\ gameState (ticks 5 s0) = FINISHED /\ timeLeft (ticks 5 s0) = 0).
Proof.
  assert (Hg : gameState Sample.playing = PLAYING) by reflexivity.
  assert (H1 : 1 <= timeLeft Sample.playing) by (vm_compute; discriminate).
  assert (Hd : duration (settings Sample.five_seconds) = 5) by reflexivity.
  pose proof (countdown_clock ThreeQ.intersectsSphere ThreeQ.distanceTo)
    as [Htick [_ [_ [_ [_ Hfive]]]]].
  split.
  - split; [exact Hg | split; [exact H1 |]].
    exact (proj1 (Htick Sample.playing Hg H1)).
  - split; [exact Hd |].
    exact (Hfive Sample.draws_distinct Sample.five_seconds Hd).
Defined.

(** C9 at a pause with 42 seconds left. *)
Lemma pause_preserves_session_witness :
  gameState Sample.playing_42 = PLAYING
  /\ timeLeft Sample.playing_42 = 42
  /\ Forall passive Sample.ten_seconds_paused
  /\ let paused := handleKeyDown Sample.playing_42 in
     let later :=
       run ThreeQ.intersectsSphere ThreeQ.distanceTo paused
         Sample.ten_seconds_paused in
     gameState paused = PAUSED
     /\ later = paused
     /\ stats paused = stats Sample.playing_42
     /\ targets paused = targets Sample.playing_42
     /\ timeLeft paused = timeLeft Sample.playing_42
     /\ handleKeyDown later = Sample.playing_42
     /\ resumeGame later = Sample.playing_42
     /\ step ThreeQ.intersectsSphere ThreeQ.distanceTo later KeyPause
        = Sample.playing_42
     /\ step ThreeQ.intersectsSphere ThreeQ.distanceTo later ClickResume
        = Sample.playing_42.
Proof.
  assert (Hg : gameState Sample.playing_42 = PLAYING) by reflexivity.
  assert (Hp : Forall passive Sample.ten_seconds_paused)
    by (repeat constructor).
  split; [exact Hg | split; [reflexivity | split; [exact Hp |]]].
  exact (pause_preserves_session ThreeQ.intersectsSphere ThreeQ.distanceTo
           Sample.playing_42 Sample.ten_seconds_paused Hg Hp).
Defined.

(** C10 at the random numbers 0.25 and 0.75. *)
Lemma spawn_position_bounds_witness :
  valid_draw Sample.draw_new
  /\ in_spawn_box (position (generateTarget [] Sample.draw_new))
  /\ position (generateTarget [] Sample.draw_new)
     = ((0.25 - 0.5) * 10, 1.2 + 0.75 * 2.5, - (12))%Q.
Proof.
  split; [exact draw_new_valid | split; [| reflexivity]].
  exact (proj1 (proj1 (spawn_position_bounds
                         ThreeQ.intersectsSphere ThreeQ.distanceTo)
                  [] Sample.draw_new draw_new_valid)).
Defined.

(* ================================================================== *)
(** ** Inputs for the further properties *)

Lemma fresh_events_state_reachable :
  reachable ThreeQ.intersectsSphere ThreeQ.distanceTo
    (run ThreeQ.intersectsSphere ThreeQ.distanceTo initialState
       Sample.fresh_events).
Proof. apply reachable_fresh_reachable. exact fresh_events_reachable. Qed.

Lemma clash_events_state_reachable :
  reachable ThreeQ.intersectsSphere ThreeQ.distanceTo
    (run ThreeQ.intersectsSphere ThreeQ.distanceTo initialState
       Sample.clash_events).
Proof.
  apply reachable_run; [apply reachable_init |].
  apply Forall_cons; [exact draws_clash_valid |].
  apply Forall_cons; [exact draw_new_valid | apply Forall_nil].
Qed.

Lemma big_events_state_reachable :
  reachable ThreeQ.intersectsSphere ThreeQ.distanceTo
    (run ThreeQ.intersectsSphere ThreeQ.distanceTo initialState
       SampleExtra.big_events).
Proof.
  apply reachable_run; [apply reachable_init |].
  apply Forall_cons; [cbn; lia |].
  apply Forall_cons; [cbn; split; lra |].
  apply Forall_cons; [exact draws_distinct_valid | apply Forall_nil].
Qed.

(** X1 at a session with a pause, from [Sample.playing]. *)
Lemma settings_fixed_outside_menu_witness :
  (forall k,
      gameState (run ThreeQ.intersectsSphere ThreeQ.distanceTo Sample.playing
                   (firstn k SampleExtra.session_events)) <> MENU)
  /\ settings (run ThreeQ.intersectsSphere ThreeQ.distanceTo Sample.playing
                 SampleExtra.session_events)
     = settings Sample.playing.
Proof.
  assert (H : forall k,
             gameState
               (run ThreeQ.intersectsSphere ThreeQ.distanceTo Sample.playing
                  (firstn k SampleExtra.session_events)) <> MENU).
  { intros k. do 6 (destruct k as [| k]; [vm_compute; discriminate |]).
    vm_compute. discriminate. }
  split; [exact H |].
  exact (settings_fixed_outside_menu ThreeQ.intersectsSphere ThreeQ.distanceTo
           Sample.playing SampleExtra.session_events H).
Defined.

(** X2 after the largest settings were chosen. *)
Lemma reachable_settings_in_range_witness :
  let s := run ThreeQ.intersectsSphere ThreeQ.distanceTo initialState
             SampleExtra.big_events in
  reachable ThreeQ.intersectsSphere ThreeQ.distanceTo s
  /\ targetCount (settings s) = 10%nat
  /\ (1 <= targetCount (settings s) <= 10)%nat
  /\ (0.2 <= targetSize (settings s) /\ targetSize (settings s) <= 1.5)%Q.
Proof.
  cbv zeta.
  pose proof (reachable_settings_in_range
                ThreeQ.intersectsSphere ThreeQ.distanceTo _
                big_events_state_reachable) as [Hc [Hs _]].
  split; [exact big_events_state_reachable | split; [reflexivity |]].
  split; [exact Hc | exact Hs].
Defined.

(** X3 at the session in which two targets drew the same id. *)
Lemma live_targets_bounded_witness :
  let s := run ThreeQ.intersectsSphere ThreeQ.distanceTo initialState
             Sample.clash_events in
  reachable ThreeQ.intersectsSphere ThreeQ.distanceTo s
  /\ (gameState s = PLAYING \/ gameState s = PAUSED)
  /\ List.length (targets s) = 2%nat
  /\ (1 <= List.length (targets s) <= targetCount (settings s))%nat.
Proof.
  cbv zeta.
  assert (Hg : gameState
                 (run ThreeQ.intersectsSphere ThreeQ.distanceTo initialState
                    Sample.clash_events) = PLAYING
               \/ gameState
                    (run ThreeQ.intersectsSphere ThreeQ.distanceTo initialState
                       Sample.clash_events) = PAUSED)
    by (left; vm_compute; reflexivity).
  split; [exact clash_events_state_reachable | split; [exact Hg |]].
  split; [vm_compute; reflexivity |].
  exact (proj1 (live_targets_bounded ThreeQ.intersectsSphere ThreeQ.distanceTo
                  _ clash_events_state_reachable Hg)).
Defined.

(** X4 at the end of the session [Sample.fresh_events]. *)
Lemma reachable_score_consistent_witness :
  let s := run ThreeQ.intersectsSphere ThreeQ.distanceTo initialState
             Sample.fresh_events in
  reachable ThreeQ.intersectsSphere ThreeQ.distanceTo s
  /\ score (stats s) = 100
  /\ score (stats s) = 100 * shotsHit (stats s)
  /\ (0 <= accuracy (stats s) /\ accuracy (stats s) <= 100)%Q.
Proof.
  cbv zeta.
  pose proof (reachable_score_consistent
                ThreeQ.intersectsSphere ThreeQ.distanceTo _
                fresh_events_state_reachable) as [_ [_ [Hs Ha]]].
  split; [exact fresh_events_state_reachable | split; [reflexivity |]].
  split; [exact Hs | exact Ha].
Defined.

(** X5 at the end of the session [Sample.fresh_events]. *)
Lemma hit_history_times_ordered_witness :
  let s := run ThreeQ.intersectsSphere ThreeQ.distanceTo initialState
             Sample.fresh_events in
  reachable ThreeQ.intersectsSphere ThreeQ.distanceTo s
  /\ map time (hitHistory (stats s)) = [0]
  /\ StronglySorted Z.le (map time (hitHistory (stats s))).
Proof.
  cbv zeta.
  split; [exact fresh_events_state_reachable | split; [reflexivity |]].
  exact (proj2 (hit_history_times_ordered
                  ThreeQ.intersectsSphere ThreeQ.distanceTo _
                  fresh_events_state_reachable)).
Defined.

(** X7 at a mouse button after the session has ended. *)
Lemma idle_states_ignore_input_witness :
  gameState SampleExtra.finished = FINISHED
  /\ step ThreeQ.intersectsSphere ThreeQ.distanceTo SampleExtra.finished
       (MouseDown Sample.ray_ahead 70000 Sample.draw_new)
     = SampleExtra.finished.
Proof.
  assert (Hg : gameState SampleExtra.finished = FINISHED)
    by (vm_compute; reflexivity).
  split; [exact Hg |].
  apply (idle_states_ignore_input ThreeQ.intersectsSphere ThreeQ.distanceTo).
  left. split; [exact Hg | split; [intros ds; discriminate | discriminate]].
Defined.

(** X8 at a hit on the target "i" of [Sample.playing]. *)
Lemma respawn_replaces_hit_target_witness :
  let l := targets Sample.playing in
  NoDup (map id l) /\ In "i"%string (map id l)
  /\ ~ In (rand_id Sample.draw_new) (map id l)
  /\ map id (respawn "i" Sample.draw_new l) = ["7"; "r4pz0q1xk"; "9"]%string
  /\ ~ In "i"%string (map id (respawn "i" Sample.draw_new l)).
Proof.
  cbv zeta.
  assert (Hnd : NoDup (map id (targets Sample.playing))).
  { vm_compute. repeat constructor; intros H;
      repeat (destruct H as [H | H]; [discriminate H |]); exact H. }
  assert (Hin : In "i"%string (map id (targets Sample.playing)))
    by (left; reflexivity).
  assert (Hf : ~ In (rand_id Sample.draw_new) (map id (targets Sample.playing))).
  { vm_compute. intros H;
      repeat (destruct H as [H | H]; [discriminate H |]); exact H. }
  split; [exact Hnd | split; [exact Hin | split; [exact Hf |]]].
  split; [reflexivity |].
  exact (proj1 (proj2 (proj2 (respawn_replaces_hit_target
                                "i"%string Sample.draw_new
                                (targets Sample.playing) Hnd Hin Hf)))).
Defined.

(** X9 at two targets equally far: the first is returned. *)
Lemma resolve_first_nearest_witness :
  resolve ThreeQ.intersectsSphere ThreeQ.distanceTo Sample.ray_ahead
    SampleExtra.twins 0.5
  = Some (nth 0 SampleExtra.twins Sample.target_ahead, 17.000%Q)
  /\ exists l1 l2,
       SampleExtra.twins
       = l1 ++ nth 0 SampleExtra.twins Sample.target_ahead :: l2
       /\ forall t', In t' l1 ->
            ThreeQ.intersectsSphere Sample.ray_ahead (hitbox 0.5 t') = true ->
            (17.000 < ThreeQ.distanceTo (position t') (origin Sample.ray_ahead))%Q.
Proof.
  assert (Hr : resolve ThreeQ.intersectsSphere ThreeQ.distanceTo
                 Sample.ray_ahead SampleExtra.twins 0.5
               = Some (nth 0 SampleExtra.twins Sample.target_ahead, 17.000%Q))
    by (vm_compute; reflexivity).
  split; [exact Hr |].
  destruct (resolve_first_nearest ThreeQ.intersectsSphere ThreeQ.distanceTo
              _ _ _ _ _ Hr) as [l1 [l2 [El [_ [_ [Hb _]]]]]].
  exists l1, l2. split; [exact El | exact Hb].
Defined.

(** X10 at (80, 400) against (92, 300): B, then S. *)
Lemma grade_monotone_witness :
  (80 <= 92)%Q /\ (300 <= 400)%Q
  /\ grade_of 80 400 = B_grade /\ grade_of 92 300 = S_grade
  /\ (grade_rank (grade_of 80 400) <= grade_rank (grade_of 92 300))%nat.
Proof.
  assert (Ha : (80 <= 92)%Q) by discriminate.
  assert (Ht : (300 <= 400)%Q) by discriminate.
  split; [exact Ha | split; [exact Ht |]].
  split; [reflexivity | split; [reflexivity |]].
  exact (grade_monotone 80 92 400 300 Ha Ht).
Defined.

(** X12 at the end of the session [Sample.fresh_events], with one hit. *)
Lemma report_variance_guarded_witness :
  let s := run ThreeQ.intersectsSphere ThreeQ.distanceTo initialState
             Sample.fresh_events in
  reachable ThreeQ.intersectsSphere ThreeQ.distanceTo s
  /\ List.length (hitHistory (stats s)) = 1%nat
  /\ exists v, variance (stats s) = Some v /\ (v == 0)%Q.
Proof.
  cbv zeta.
  split; [exact fresh_events_state_reachable | split; [reflexivity |]].
  eapply (proj2 (proj2 (proj2 (proj2 (report_variance_guarded
                                        ThreeQ.intersectsSphere
                                        ThreeQ.distanceTo)))));
    [exact fresh_events_state_reachable | vm_compute; reflexivity].
Defined.

(** X13 at the seven hits of [Sample.ten_shots]. *)
Lemma chart_points_inside_witness :
  let st := scoreShots Sample.ten_shots zeroStats in
  (2 <= List.length (hitHistory st))%nat
  /\ (forall h, In h (hitHistory st) -> 0 < reactionTime h)
  /\ exists pts,
       renderChart st = Some pts /\ List.length pts = 7%nat
       /\ forall x y, In (x, y) pts ->
                      (5 <= x /\ x <= 295)%Q /\ (5 <= y /\ y < 75)%Q.
Proof.
  intros st.
  assert (Hn : (2 <= List.length (hitHistory st))%nat) by (vm_compute; lia).
  assert (Hp : forall h, In h (hitHistory st) -> 0 < reactionTime h).
  { intros h Hin. vm_compute in Hin.
    repeat (destruct Hin as [<- | Hin]; [reflexivity |]). destruct Hin. }
  split; [exact Hn | split; [exact Hp |]].
  destruct (proj2 chart_points_inside st Hn Hp) as [pts [E [Hl Hb]]].
  exists pts. split; [exact E | split; [| exact Hb]].
  rewrite Hl. reflexivity.
Defined.

(** X14 at 42 seconds. *)
Lemma hud_clock_format_witness :
  0 <= 42
  /\ hudClock 42 = "0:42"%string
  /\ clockMinutes 42 * 60 + clockSeconds 42 = 42
  /\ exists ss, hudClock 42 = (Number_toString (clockMinutes 42) ++ ":" ++ ss)%string
                /\ twoDigitsOf ss = Some (clockSeconds 42).
Proof.
  assert (H : 0 <= 42) by discriminate.
  destruct (proj1 (hud_clock_format ThreeQ.intersectsSphere ThreeQ.distanceTo)
              42 H) as [Hsum [_ [ss [E [_ Hd]]]]].
  split; [exact H | split; [reflexivity | split; [exact Hsum |]]].
  exists ss. split; assumption.
Defined.

(** X15 at a shot and three frames of 16 milliseconds. *)
Lemma gun_recoil_bounded_witness :
  Forall (fun f => (0 <= snd f)%Q) SampleExtra.gun_frames
  /\ let g := gunFrames SampleExtra.sinQ SampleExtra.cosQ
                SampleExtra.gun_frames gunInitial in
     (recoilAnim g == 0.072)%Q
     /\ (0 <= recoilAnim g /\ recoilAnim g <= 0.2)%Q.
Proof.
  assert (Hf : Forall (fun f => (0 <= snd f)%Q) SampleExtra.gun_frames)
    by (repeat constructor; discriminate).
  split; [exact Hf |]. cbv zeta. split; [reflexivity |].
  exact (proj1 (gun_recoil_bounded SampleExtra.sinQ SampleExtra.cosQ
                  SampleExtra.gun_frames Hf)).
Defined.

(** X16 at frames of 50, 30 and 120 milliseconds from a recoil of 0.2:
    the frame of 120 milliseconds is long enough. *)
Lemma gun_recoil_falls_at_rest_witness :
  Forall (fun delta => (0 <= delta)%Q) SampleExtra.rest_deltas
  /\ (0 <= recoilAnim SampleExtra.gun_recoiled)%Q
  /\ In 0.12%Q SampleExtra.rest_deltas
  /\ (recoilAnim SampleExtra.gun_recoiled <= 0.12 * 2)%Q
  /\ (recoilAnim (gunRest SampleExtra.sinQ SampleExtra.cosQ true
                    SampleExtra.rest_deltas SampleExtra.gun_recoiled) == 0)%Q.
Proof.
  assert (Hd : Forall (fun delta => (0 <= delta)%Q) SampleExtra.rest_deltas)
    by (repeat constructor; discriminate).
  assert (Hg : (0 <= recoilAnim SampleExtra.gun_recoiled)%Q) by discriminate.
  assert (Hin : In 0.12%Q SampleExtra.rest_deltas)
    by (right; right; left; reflexivity).
  assert (Hle : (recoilAnim SampleExtra.gun_recoiled <= 0.12 * 2)%Q)
    by discriminate.
  split; [exact Hd | split; [exact Hg | split; [exact Hin |]]].
  split; [exact Hle |].
  exact (proj2 (gun_recoil_falls_at_rest
                  SampleExtra.sinQ SampleExtra.cosQ true
                  SampleExtra.rest_deltas SampleExtra.gun_recoiled Hd Hg)
           0.12%Q Hin Hle).
Defined.

(** X18 at the end of the session [Sample.fresh_events], and a tick. *)
Lemma countdown_only_falls_witness :
  let s := run ThreeQ.intersectsSphere ThreeQ.distanceTo initialState
             Sample.fresh_events in
  reachable ThreeQ.intersectsSphere ThreeQ.distanceTo s
  /\ timeLeft s = 59
  /\ (timeLeft (step ThreeQ.intersectsSphere ThreeQ.distanceTo s TimerTick)
      = timeLeft s
      \/ timeLeft (step ThreeQ.intersectsSphere ThreeQ.distanceTo s TimerTick)
         = timeLeft s - 1).
Proof.
  cbv zeta.
  split; [exact fresh_events_state_reachable | split; [reflexivity |]].
  apply (proj2 (countdown_only_falls ThreeQ.intersectsSphere ThreeQ.distanceTo
                  _ fresh_events_state_reachable)).
  intros ds. discriminate.
Defined.
